(** * demo_three_pillars.py: metrics, traces and correlated logs

    A shallow embedding of [src/demo-app/demo_three_pillars.py] and the
    properties of its counters, rate estimator, observation callbacks,
    span context and JSON log emitter.

    Python integers are [Z]; Python floats are IEEE binary64 numbers
    ([PrimFloat.float]); dictionaries are [gmap]s; the module-level
    variables, the tracer context, the log handler and the environment
    (clock, random source, log sink) form one [world] threaded through an
    exception monad. *)

From Stdlib Require Import ZArith NArith List String Ascii Floats Lia Bool.
From Stdlib Require Import DecimalString HexadecimalString.
From stdpp Require Import base gmap strings list.

Local Open Scope string_scope.
Local Open Scope Z_scope.

(* 0.001 and 0.02 are read as the nearest binary64 values, as Python does. *)
Set Warnings "-inexact-float".

(** ** Python numbers *)

Module PyNum.

(** [float(z)] for a Python integer: rounded to nearest even; a magnitude
    beyond the binary64 range raises [OverflowError] ([None] here). *)
Definition float_of_int (z : Z) : option float :=
  match binary_normalize prec emax z 0 false with
  | S754_infinity _ => None
  | sf => Some (SF2Prim sf)
  end.

(** [int(f)]: truncation toward zero; [OverflowError] on an infinity and
    [ValueError] on a NaN (both [None] here, told apart by the caller). *)
Definition int_of_spec_float (sf : spec_float) : option Z :=
  match sf with
  | S754_zero _ => Some 0
  | S754_finite s m e =>
      let mag := match e with
                 | Zneg k => Z.shiftr (Zpos m) (Zpos k)
                 | _ => Z.shiftl (Zpos m) e
                 end in
      Some (if s then - mag else mag)
  | S754_infinity _ => None
  | S754_nan => None
  end.

Definition int_of_float (f : float) : option Z := int_of_spec_float (Prim2SF f).

(** The builtin [max(a, b)] on two floats: [b] when [b > a], else [a]. *)
Definition max (a b : float) : float := if (a <? b)%float then b else a.

(** Floor division [a // b] of integers, for a positive divisor. *)
Definition floordiv (a b : Z) : Z := a / b.

End PyNum.

(** ** Text formatting *)

Module PyStr.

Definition dquote : ascii := ascii_of_nat 34.
Definition backslash : ascii := ascii_of_nat 92.
Definition newline : string := String (ascii_of_nat 10) EmptyString.

(** [str(z)] for an integer. *)
Definition of_int (z : Z) : string :=
  DecimalString.NilZero.string_of_int (Z.to_int z).

(** [f"{i}"] for a small natural number, as in [f"source{i}"]. *)
Definition of_nat (n : nat) : string := of_int (Z.of_nat n).

Fixpoint zeros (n : nat) : string :=
  match n with O => EmptyString | S k => String "0" (zeros k) end.

(** Lower-case hexadecimal digits of a natural number, without prefix. *)
Definition hex (n : N) : string :=
  HexadecimalString.NilZero.string_of_uint (N.to_hex_uint n).

(** The format specification [032x]: lower-case hexadecimal, padded with
    zeros on the left to at least 32 characters. *)
Definition format_032x (n : N) : string :=
  let h := hex n in
  zeros (32 - String.length h) ++ h.

Definition hex_digit (n : N) : ascii :=
  match n with
  | 0 => "0" | 1 => "1" | 2 => "2" | 3 => "3" | 4 => "4" | 5 => "5"
  | 6 => "6" | 7 => "7" | 8 => "8" | 9 => "9" | 10 => "a" | 11 => "b"
  | 12 => "c" | 13 => "d" | 14 => "e" | _ => "f"
  end%N%char.

(** One character of a JSON string under [ensure_ascii]: the quote and the
    backslash are escaped, the usual control characters have short
    escapes, and everything else outside [' '..'~'] becomes [\u00XX]. *)
Definition json_escape_char (c : ascii) : string :=
  let n := N_of_ascii c in
  if Ascii.eqb c dquote then String backslash (String dquote EmptyString)
  else if Ascii.eqb c backslash then String backslash (String backslash EmptyString)
  else if (n =? 10)%N then String backslash "n"
  else if (n =? 13)%N then String backslash "r"
  else if (n =? 9)%N then String backslash "t"
  else if (n =? 8)%N then String backslash "b"
  else if (n =? 12)%N then String backslash "f"
  else if ((32 <=? n) && (n <=? 126))%N then String c EmptyString
  else String backslash
         ("u00" ++ String (hex_digit (n / 16)) (String (hex_digit (n mod 16)) EmptyString)).

Fixpoint json_escape (s : string) : string :=
  match s with
  | EmptyString => EmptyString
  | String c r => json_escape_char c ++ json_escape r
  end.

Definition json_string (s : string) : string :=
  String dquote (json_escape s) ++ String dquote EmptyString.

End PyStr.

(** ** Values exchanged with the collaborators *)

(** The exceptions the modelled code can raise. *)
Inductive exn :=
| KeyError (key : string)
| IndexError
| OverflowError
| ValueError
| ZeroDivisionError
| RuntimeError
| OSError (msg : string).

(** A measurement value: the totals and per-entity values are integers, the
    packet rate is a float. *)
Inductive number :=
| Int (z : Z)
| Float (f : float).

(** [opentelemetry.metrics.Observation(value, attributes)]. *)
Record Observation := mkObservation {
  value : number;
  attributes : list (string * string)
}.

Inductive attr_value :=
| AStr (s : string)
| AInt (z : Z).

(** A span of the tracer: its name, the identity of its trace, its own
    identity and the attributes set on it. *)
Record span := mkSpan {
  span_name : string;
  trace_id : N;
  span_id : N;
  span_attributes : list (string * attr_value)
}.

(** The values of the fields of a log record. *)
Inductive json :=
| JStr (s : string)
| JInt (z : Z)
| JNull.

(** ** The world: module state, tracer, log handler, environment *)

(** A log file that cannot be written: the message of the [OSError], and
    what still reaches the file when a write fails. The stream is buffered,
    so a [flush()] that raises may already have put part of the buffered
    data into the file, the rest of an earlier line included;
    [landed n line] is that part at the failure number [n], [line] being
    the line just written. *)
Record sink_failure := mkFailure {
  errmsg : string;
  landed : nat -> string -> list string
}.

(** The environment the program reads: successive readings of [time.time()],
    the raw output of the random source, the calendar rendering used by
    [datetime.isoformat()], and whether, and how, writing to the log file
    fails. *)
Record env := mkEnv {
  clock : nat -> float;
  ticks : nat;
  entropy : nat -> N;
  draws : nat;
  calendar : float -> string;
  sink_error : option sink_failure
}.

(** The tracer: the spans open on the main thread, innermost first, and the
    spans already ended and handed to the span processor. *)
Record tracer_state := mkTracer {
  active : list span;
  ended : list span
}.

(** The log handler: depth of its re-entrant lock, what was written to
    [LOG_PATH], piece by piece (a whole line for each write that
    succeeded), and what the logging module printed on [sys.stderr]. *)
Record handler_state := mkHandler {
  lock_depth : nat;
  log_lines : list string;
  stderr_lines : list string
}.

Record world := mkWorld {
  packets_in_total : Z;
  packets_out_total : Z;
  last_rate_calc : float;
  last_total : Z;
  src_state : gmap string (gmap string Z);
  dst_state : gmap string (gmap string Z);
  tracer : tracer_state;
  handler : handler_state;
  environ : env
}.

Definition set_packets_in_total (v : Z) (w : world) : world :=
  mkWorld v (packets_out_total w) (last_rate_calc w) (last_total w)
          (src_state w) (dst_state w) (tracer w) (handler w) (environ w).
Definition set_packets_out_total (v : Z) (w : world) : world :=
  mkWorld (packets_in_total w) v (last_rate_calc w) (last_total w)
          (src_state w) (dst_state w) (tracer w) (handler w) (environ w).
Definition set_last_rate_calc (v : float) (w : world) : world :=
  mkWorld (packets_in_total w) (packets_out_total w) v (last_total w)
          (src_state w) (dst_state w) (tracer w) (handler w) (environ w).
Definition set_last_total (v : Z) (w : world) : world :=
  mkWorld (packets_in_total w) (packets_out_total w) (last_rate_calc w) v
          (src_state w) (dst_state w) (tracer w) (handler w) (environ w).
Definition set_src_state (v : gmap string (gmap string Z)) (w : world) : world :=
  mkWorld (packets_in_total w) (packets_out_total w) (last_rate_calc w) (last_total w)
          v (dst_state w) (tracer w) (handler w) (environ w).
Definition set_dst_state (v : gmap string (gmap string Z)) (w : world) : world :=
  mkWorld (packets_in_total w) (packets_out_total w) (last_rate_calc w) (last_total w)
          (src_state w) v (tracer w) (handler w) (environ w).
Definition set_tracer (v : tracer_state) (w : world) : world :=
  mkWorld (packets_in_total w) (packets_out_total w) (last_rate_calc w) (last_total w)
          (src_state w) (dst_state w) v (handler w) (environ w).
Definition set_handler (v : handler_state) (w : world) : world :=
  mkWorld (packets_in_total w) (packets_out_total w) (last_rate_calc w) (last_total w)
          (src_state w) (dst_state w) (tracer w) v (environ w).
Definition set_environ (v : env) (w : world) : world :=
  mkWorld (packets_in_total w) (packets_out_total w) (last_rate_calc w) (last_total w)
          (src_state w) (dst_state w) (tracer w) (handler w) v.

(** ** The exception monad over the world *)

(** A call either returns a value or raises; either way the world it leaves
    behind is kept, since the mutations made before a raise persist. *)
Inductive result (A : Type) :=
| Ok (a : A) (w : world)
| Raise (e : exn) (w : world).
Arguments Ok {A} a w.
Arguments Raise {A} e w.

Definition M (A : Type) : Type := world -> result A.

Definition ret {A} (a : A) : M A := fun w => Ok a w.

Definition bind {A B} (m : M A) (f : A -> M B) : M B :=
  fun w => match m w with
           | Ok a w' => f a w'
           | Raise e w' => Raise e w'
           end.

Definition raise {A} (e : exn) : M A := fun w => Raise e w.

Definition gets {A} (f : world -> A) : M A := fun w => Ok (f w) w.

Definition modify (f : world -> world) : M unit := fun w => Ok tt (f w).

(** [try: m finally: c]. *)
Definition finally {A} (m : M A) (c : M unit) : M A :=
  fun w => match m w with
           | Ok a w' => match c w' with
                        | Ok _ w'' => Ok a w''
                        | Raise e w'' => Raise e w''
                        end
           | Raise e w' => match c w' with
                           | Ok _ w'' => Raise e w''
                           | Raise e' w'' => Raise e' w''
                           end
           end.

(** [try: m except Exception as e: h e]. *)
Definition catch {A} (m : M A) (h : exn -> M A) : M A :=
  fun w => match m w with
           | Ok a w' => Ok a w'
           | Raise e w' => h e w'
           end.

(** The world a call leaves behind, whether it returned or raised. *)
Definition final {A} (r : result A) : world :=
  match r with Ok _ w => w | Raise _ w => w end.

Notation "x <- m ;; k" := (bind m (fun x => k))
  (at level 100, m at next level, right associativity).
Notation "m ;; k" := (bind m (fun _ => k))
  (at level 100, right associativity).

(** [for x in l: body x], threading an accumulator. *)
Fixpoint for_each {A B} (l : list A) (body : A -> B -> M B) (acc : B) : M B :=
  match l with
  | [] => ret acc
  | x :: r => acc' <- body x acc ;; for_each r body acc'
  end.

(** [for _ in range(n): body], threading an accumulator. *)
Fixpoint for_range {B} (n : nat) (body : B -> M B) (acc : B) : M B :=
  match n with
  | O => ret acc
  | S k => acc' <- body acc ;; for_range k body acc'
  end.

(** ** The collaborators at their interface *)

(** [time]: each call of [time.time()] takes the next reading of the clock. *)
Module PyTime.

Definition tick (w : world) : world :=
  let e := environ w in
  set_environ (mkEnv (clock e) (S (ticks e)) (entropy e) (draws e)
                     (calendar e) (sink_error e)) w.

Definition time : M float :=
  fun w => Ok (clock (environ w) (ticks (environ w))) (tick w).

(** [time.sleep(secs)] blocks and changes nothing the program can see; a
    negative or NaN length raises [ValueError]. *)
Definition sleep (secs : float) : M unit :=
  if (0 <=? secs)%float then ret tt else raise ValueError.

(** [datetime.utcnow().isoformat()]: one more reading of the clock,
    rendered by the calendar. *)
Definition utcnow_isoformat : M string :=
  t <- time ;; c <- gets (fun w => calendar (environ w)) ;; ret (c t).

End PyTime.

(** [random]: every draw consumes one raw number of the entropy source and
    maps it into the requested range. *)
Module PyRandom.

Definition advance (w : world) : world :=
  let e := environ w in
  set_environ (mkEnv (clock e) (ticks e) (entropy e) (S (draws e))
                     (calendar e) (sink_error e)) w.

Definition raw : M N :=
  fun w => Ok (entropy (environ w) (draws (environ w))) (advance w).

(** [random.randint(a, b)]: an integer [n] with [a <= n <= b]. *)
Definition randint (a b : Z) : M Z :=
  if b <? a then raise ValueError
  else r <- raw ;; ret (a + Z.of_N r mod (b - a + 1)).

(** [random.choice(seq)]: an element of a non-empty sequence. *)
Definition choice {A} (l : list A) : M A :=
  r <- raw ;;
  match nth_error l (N.to_nat r mod length l)%nat with
  | Some x => ret x
  | None => raise IndexError
  end.

(** [random.random()]: a multiple of [2^-53] in [[0, 1)]. *)
Definition random : M float :=
  r <- raw ;;
  ret (SF2Prim (binary_normalize prec emax (Z.of_N r mod 2 ^ 53) (-53) false)).

End PyRandom.

(** The tracer of the OpenTelemetry SDK, seen from the main thread: the
    current span is the innermost open one; a span opened under a valid
    current span joins its trace, otherwise it starts a trace with a fresh
    non-zero identity. *)
Module Trace.

Definition INVALID_SPAN : span := mkSpan EmptyString 0 0 [].

Definition is_valid (s : span) : bool :=
  negb (trace_id s =? 0)%N && negb (span_id s =? 0)%N.

Definition get_current_span : M span :=
  gets (fun w => hd INVALID_SPAN (active (tracer w))).

Definition generate_trace_id : M N :=
  r <- PyRandom.raw ;; ret (1 + r mod (2 ^ 128 - 1))%N.

Definition generate_span_id : M N :=
  r <- PyRandom.raw ;; ret (1 + r mod (2 ^ 64 - 1))%N.

Definition push (s : span) (w : world) : world :=
  set_tracer (mkTracer (s :: active (tracer w)) (ended (tracer w))) w.

Definition pop (w : world) : world :=
  match active (tracer w) with
  | [] => w
  | s :: rest => set_tracer (mkTracer rest (ended (tracer w) ++ [s])%list) w
  end.

Definition enter (name : string) : M unit :=
  parent <- get_current_span ;;
  tid <- (if is_valid parent then ret (trace_id parent) else generate_trace_id) ;;
  sid <- generate_span_id ;;
  modify (push (mkSpan name tid sid [])).

Definition exit : M unit := modify pop.

(** [with tracer.start_as_current_span(name): body]. *)
Definition start_as_current_span {A} (name : string) (body : M A) : M A :=
  enter name ;; finally body exit.

(** [span.set_attribute(key, v)] on the span that is current. *)
Definition set_attribute (key : string) (v : attr_value) : M unit :=
  modify (fun w =>
    match active (tracer w) with
    | [] => w
    | s :: rest =>
        set_tracer
          (mkTracer (mkSpan (span_name s) (trace_id s) (span_id s)
                            (span_attributes s ++ [(key, v)])%list :: rest)
                    (ended (tracer w))) w
    end).

End Trace.

(** [json.dumps(record, separators=(",", ":"))] for a flat record. *)
Module Json.

Definition value (v : json) : string :=
  match v with
  | JStr s => PyStr.json_string s
  | JInt z => PyStr.of_int z
  | JNull => "null"
  end.

Definition member (kv : string * json) : string :=
  PyStr.json_string (fst kv) ++ ":" ++ value (snd kv).

Fixpoint members (l : list (string * json)) : string :=
  match l with
  | [] => EmptyString
  | [kv] => member kv
  | kv :: r => member kv ++ "," ++ members r
  end.

Definition dumps (record : list (string * json)) : string :=
  "{" ++ members record ++ "}".

(** The records [json.dumps] serialises: it renders an integer through
    [int.__repr__], which raises [ValueError] beyond 4300 decimal digits,
    the default of [sys.get_int_max_str_digits()]. [dumps] is the rendering
    of these records. *)
Definition accepts (record : list (string * json)) : bool :=
  forallb (fun kv => match snd kv with
                     | JInt z => (Z.abs z <? 10 ^ 4300)%Z
                     | _ => true
                     end) record.

End Json.

(** The [logging] module with the [RotatingFileHandler] of the program. A
    failed write is caught inside the handler's [emit] and given to
    [handleError], which reports on [sys.stderr] and returns. *)
Module Logging.

Definition set_lock (d : nat) (w : world) : world :=
  let h := handler w in
  set_handler (mkHandler d (log_lines h) (stderr_lines h)) w.

(** [handler.acquire()]: the lock is re-entrant. *)
Definition acquire : M unit :=
  modify (fun w => set_lock (S (lock_depth (handler w))) w).

(** [handler.release()]. *)
Definition release : M unit :=
  fun w => match lock_depth (handler w) with
           | O => Raise RuntimeError w
           | S d => Ok tt (set_lock d w)
           end.

(** [stream.write(line)] followed by [flush()]. When the file cannot be
    written the call raises [OSError] after the part of the data that was
    still accepted has reached the file; the failures so far are counted by
    their reports on [sys.stderr]. *)
Definition stream_write (line : string) : M unit :=
  fun w => let h := handler w in
           match sink_error (environ w) with
           | Some f =>
               Raise (OSError (errmsg f))
                     (set_handler
                        (mkHandler (lock_depth h)
                                   (log_lines h
                                    ++ landed f (length (stderr_lines h)) line)%list
                                   (stderr_lines h)) w)
           | None =>
               Ok tt (set_handler (mkHandler (lock_depth h) (log_lines h ++ [line])%list
                                             (stderr_lines h)) w)
           end.

(** [Handler.handleError(record)]: prints a report, never raises. *)
Definition handleError (e : exn) : M unit :=
  modify (fun w =>
    let h := handler w in
    set_handler (mkHandler (lock_depth h) (log_lines h)
                           (stderr_lines h ++ ["--- Logging error ---"])%list) w).

(** [RotatingFileHandler.emit(record)] with the formatter ['%(message)s']. *)
Definition emit (msg : string) : M unit :=
  catch (stream_write (msg ++ PyStr.newline)) handleError.

(** [Handler.handle(record)]: [emit] under the handler's lock. *)
Definition handle (msg : string) : M unit :=
  acquire ;; finally (emit msg) release.

(** [logger.info(msg)]: the logger's level is [INFO] and the file handler is
    its only handler. *)
Definition info (msg : string) : M unit := handle msg.

End Logging.

(** ** The program *)

Module Demo.

Definition host_labels : list (string * string) := [("hostname", "host1")].

(** *** Observable totals (lines 43-54) *)

Definition packets_in_cb : M (list Observation) :=
  v <- gets packets_in_total ;;
  ret [mkObservation (Int v) host_labels].

Definition packets_out_cb : M (list Observation) :=
  v <- gets packets_out_total ;;
  ret [mkObservation (Int v) host_labels].

(** *** Packet rate (lines 57-68) *)

(** [a / b] with an integer numerator and a float denominator: the integer
    is converted first, then a zero denominator is refused. *)
Definition truediv (a : Z) (b : float) : M float :=
  match PyNum.float_of_int a with
  | None => raise OverflowError
  | Some x => if (b =? 0)%float then raise ZeroDivisionError
              else ret (x / b)%float
  end.

Definition packet_rate_cb : M (list Observation) :=
  now <- PyTime.time ;;
  last <- gets last_rate_calc ;;
  let elapsed := PyNum.max 0.001 (now - last) in
  pin <- gets packets_in_total ;;
  pout <- gets packets_out_total ;;
  let current := pin + pout in
  prev <- gets last_total ;;
  rate <- truediv (current - prev) elapsed ;;
  modify (set_last_total current) ;;
  modify (set_last_rate_calc now) ;;
  ret [mkObservation (Float rate) host_labels].

(** *** Per-source and per-destination state (lines 73-76) *)

Definition sources : list string :=
  map (fun i => "source" ++ PyStr.of_nat i) (seq 1 5).

Definition destinations : list string :=
  map (fun i => "dest" ++ PyStr.of_nat i) (seq 1 2).

Definition src_state0 : gmap string (gmap string Z) :=
  list_to_map
    (map (fun s => (s, {[ "packets" := 0; "bytes" := 0; "last" := 0 ]})) sources).

Definition dst_state0 : gmap string (gmap string Z) :=
  list_to_map
    (map (fun d => (d, {[ "packets" := 0; "bytes" := 0 ]})) destinations).

(** One of the two module-level dictionaries of dictionaries. *)
Record table := mkTable {
  load : world -> gmap string (gmap string Z);
  store : gmap string (gmap string Z) -> world -> world
}.

Definition SRC : table := mkTable src_state set_src_state.
Definition DST : table := mkTable dst_state set_dst_state.

(** [t[k][field]]. *)
Definition getitem (t : table) (k field : string) : M Z :=
  fun w => match load t w !! k with
           | None => Raise (KeyError k) w
           | Some d => match d !! field with
                       | None => Raise (KeyError field) w
                       | Some v => Ok v w
                       end
           end.

(** [t[k][field] = v]. *)
Definition setitem (t : table) (k field : string) (v : Z) : M unit :=
  fun w => match load t w !! k with
           | None => Raise (KeyError k) w
           | Some d => Ok tt (store t (<[k := <[field := v]> d]> (load t w)) w)
           end.

(** [t[k][field] += delta]. *)
Definition iadd (t : table) (k field : string) (delta : Z) : M unit :=
  v <- getitem t k field ;; setitem t k field (v + delta).

(** [int(x)] of a float. *)
Definition py_int (x : float) : M Z :=
  match PyNum.int_of_float x with
  | Some z => ret z
  | None => raise (if is_nan x then ValueError else OverflowError)
  end.

Definition src_labels (s metric : string) : list (string * string) :=
  [("hostname", "host1"); ("src", s); ("metric", metric)].

Definition dst_labels (d metric : string) : list (string * string) :=
  [("hostname", "host1"); ("dst", d); ("metric", metric)].

(** *** Per-source gauge callback (lines 78-91) *)

Definition src_gauge_body (now : Z) (s : string) (out : list Observation)
  : M (list Observation) :=
  add_pk <- PyRandom.randint 50 200 ;;
  r <- PyRandom.randint 64 1200 ;;
  let add_by := add_pk * r in
  iadd SRC s "packets" add_pk ;;
  iadd SRC s "bytes" add_by ;;
  setitem SRC s "last" now ;;
  p <- getitem SRC s "packets" ;;
  let out := (out ++ [mkObservation (Int p) (src_labels s "packets")])%list in
  b <- getitem SRC s "bytes" ;;
  let out := (out ++ [mkObservation (Int b) (src_labels s "bytes")])%list in
  l <- getitem SRC s "last" ;;
  let out := (out ++ [mkObservation (Int l) (src_labels s "last")])%list in
  ret out.

Definition src_gauge_cb : M (list Observation) :=
  t <- PyTime.time ;;
  now <- py_int t ;;
  for_each sources (src_gauge_body now) [].

(** *** Per-destination gauge callback (lines 93-102) *)

Definition dst_gauge_body (d : string) (out : list Observation)
  : M (list Observation) :=
  add_pk <- PyRandom.randint 40 160 ;;
  r <- PyRandom.randint 64 1200 ;;
  let add_by := add_pk * r in
  iadd DST d "packets" add_pk ;;
  iadd DST d "bytes" add_by ;;
  p <- getitem DST d "packets" ;;
  let out := (out ++ [mkObservation (Int p) (dst_labels d "packets")])%list in
  b <- getitem DST d "bytes" ;;
  let out := (out ++ [mkObservation (Int b) (dst_labels d "bytes")])%list in
  ret out.

Definition dst_gauge_cb : M (list Observation) :=
  for_each destinations dst_gauge_body [].

(** *** JSON log emitter (lines 126-131) *)

(** [log_json] on a record that [json.dumps] serialises ([Json.accepts]),
    as the records of the main loop are. *)
Definition log_json (record : list (string * json)) : M unit :=
  Logging.acquire ;;
  finally (Logging.info (Json.dumps record)) Logging.release.

(** *** Main loop (lines 137-185) *)

(** The local variables of one simulated item. *)
Record item := mkItem {
  src : string;
  dst : string;
  size : Z;
  status : string;
  latency_ms : Z
}.

Definition stage (name : string) : M unit :=
  Trace.start_as_current_span name
    (x <- PyRandom.random ;; PyTime.sleep (x * 0.02)%float).

(** Lines 146-158: the draws and the three timed stages. *)
Definition simulate_item : M item :=
  src <- PyRandom.choice sources ;;
  dst <- PyRandom.choice destinations ;;
  size <- PyRandom.randint 200 4000 ;;
  status <- PyRandom.choice ["ok"; "ok"; "ok"; "error"] ;;
  t0 <- PyTime.time ;;
  stage "ingest" ;;
  stage "transform" ;;
  stage "store" ;;
  t1 <- PyTime.time ;;
  latency_ms <- py_int ((t1 - t0) * 1000)%float ;;
  ret (mkItem src dst size status latency_ms).

(** Line 162. *)
Definition incr_in (it : item) : M unit :=
  v <- gets packets_in_total ;;
  modify (set_packets_in_total (v + PyNum.floordiv (size it) 512)).

(** Line 163. *)
Definition incr_out (it : item) : M unit :=
  v <- gets packets_out_total ;;
  modify (set_packets_out_total (v + PyNum.floordiv (size it) 512)).

(** Lines 166-167: the trace identity of the current span, [None] when the
    context of the current span has the invalid (zero) trace identity. *)
Definition current_trace_id : M (option string) :=
  sp <- Trace.get_current_span ;;
  let ctx_trace_id := trace_id sp in
  ret (if (ctx_trace_id =? 0)%N then None
       else Some (PyStr.format_032x ctx_trace_id)).

(** Lines 169-180: the record, its keys in the order of the literal. *)
Definition log_record (ts : string) (it : item) (tid : option string)
  : list (string * json) :=
  [ ("ts", JStr (ts ++ "Z"));
    ("level", JStr (if String.eqb (status it) "ok" then "INFO" else "ERROR"));
    ("hostname", JStr "host1");
    ("src", JStr (src it));
    ("dst", JStr (dst it));
    ("bytes", JInt (size it));
    ("latency_ms", JInt (latency_ms it));
    ("status", JStr (status it));
    ("trace_id", match tid with Some t => JStr t | None => JNull end);
    ("msg", JStr "processed message") ].

(** Lines 166-180. *)
Definition emit_item (it : item) : M unit :=
  tid <- current_trace_id ;;
  ts <- PyTime.utcnow_isoformat ;;
  log_json (log_record ts it tid).

(** Lines 146-180: one pass of the inner loop; the accumulator is
    [batch_latency_ms]. *)
Definition process_item (batch_latency_ms : Z) : M Z :=
  it <- simulate_item ;;
  let batch_latency_ms := batch_latency_ms + latency_ms it in
  incr_in it ;;
  incr_out it ;;
  emit_item it ;;
  ret batch_latency_ms.

(** Lines 142-183: the body of the root span. *)
Definition batch_body (req_count : Z) : M unit :=
  Trace.set_attribute "hostname" (AStr "host1") ;;
  batch_latency_ms <- for_range (Z.to_nat req_count) process_item 0 ;;
  Trace.set_attribute "batch.size" (AInt req_count) ;;
  Trace.set_attribute "batch.latency_ms" (AInt batch_latency_ms).

(** Lines 139-185: one iteration of [while True]. *)
Definition main_iteration : M unit :=
  req_count <- PyRandom.randint 3 8 ;;
  Trace.start_as_current_span "process_batch" (batch_body req_count) ;;
  PyTime.sleep 5.

(** *** Start of the process *)

(** The world after the module-level set-up: the totals at zero, the rate
    state initialised from the clock (line 57), the two tables filled,
    no span open, the handler lock free, an empty log. *)
Definition boot (e : env) : world :=
  PyTime.tick
    (mkWorld 0 0 (clock e (ticks e)) 0 src_state0 dst_state0
             (mkTracer [] []) (mkHandler 0 [] []) e).

End Demo.

(** ** Executions: the main thread interleaved with the metric reader *)

(** The main loop runs on the main thread; the periodic metric reader calls
    the five callbacks from its own thread. An execution interleaves the
    statements of the main loop with whole callback calls. *)
Module Run.
Import Demo.

(** Where the main thread stands. Inside a batch it carries the local
    variables [req_count] and [batch_latency_ms] and the number of items
    still to process; between line 162 and line 180 also the item. *)
Inductive main_pc :=
| LoopHead
| ItemHead (remaining : nat) (req_count batch_latency_ms : Z)
| Line162 (it : item) (remaining : nat) (req_count batch_latency_ms : Z)
| Line163 (it : item) (remaining : nat) (req_count batch_latency_ms : Z)
| Line166 (it : item) (remaining : nat) (req_count batch_latency_ms : Z).

Definition config : Type := world * main_pc.

(** Lines 139-143: draw [req_count], open the root span. *)
Definition batch_open : M Z :=
  req_count <- PyRandom.randint 3 8 ;;
  Trace.enter "process_batch" ;;
  Trace.set_attribute "hostname" (AStr "host1") ;;
  ret req_count.

(** Lines 182-185: close the root span, sleep. *)
Definition batch_close (req_count batch_latency_ms : Z) : M unit :=
  Trace.set_attribute "batch.size" (AInt req_count) ;;
  Trace.set_attribute "batch.latency_ms" (AInt batch_latency_ms) ;;
  Trace.exit ;;
  PyTime.sleep 5.

(** A statement of the main thread that returns moves it on; one that
    raises ends the program, so it is no step. *)
Inductive main_step : config -> config -> Prop :=
| step_open w rc w' :
    batch_open w = Ok rc w' ->
    main_step (w, LoopHead) (w', ItemHead (Z.to_nat rc) rc 0)
| step_simulate w k rc bl it w' :
    simulate_item w = Ok it w' ->
    main_step (w, ItemHead (S k) rc bl) (w', Line162 it k rc (bl + latency_ms it))
| step_incr_in w k rc bl it w' :
    incr_in it w = Ok tt w' ->
    main_step (w, Line162 it k rc bl) (w', Line163 it k rc bl)
| step_incr_out w k rc bl it w' :
    incr_out it w = Ok tt w' ->
    main_step (w, Line163 it k rc bl) (w', Line166 it k rc bl)
| step_emit w k rc bl it w' :
    emit_item it w = Ok tt w' ->
    main_step (w, Line166 it k rc bl) (w', ItemHead k rc bl)
| step_close w rc bl w' :
    batch_close rc bl w = Ok tt w' ->
    main_step (w, ItemHead 0 rc bl) (w', LoopHead).

(** The instruments registered with the meter (lines 53-54, 70, 104-105). *)
Inductive instrument :=
| packets_in_total_counter
| packets_out_total_counter
| packet_rate_gauge
| src_stats_gauge
| dst_stats_gauge.

Definition callback (i : instrument) : M (list Observation) :=
  match i with
  | packets_in_total_counter => packets_in_cb
  | packets_out_total_counter => packets_out_cb
  | packet_rate_gauge => packet_rate_cb
  | src_stats_gauge => src_gauge_cb
  | dst_stats_gauge => dst_gauge_cb
  end.

(** One step of the program: a statement of the main thread, or a pull of
    one instrument by the metric reader (whose effects stay even when the
    callback raises: the reader catches and reports it). *)
Inductive step : config -> config -> Prop :=
| step_main c c' : main_step c c' -> step c c'
| step_pull i w pc : step (w, pc) (final (callback i w), pc).

Definition steps : config -> config -> Prop := rtc step.

Definition reachable (c : config) : Prop :=
  exists e, steps (boot e, LoopHead) c.

(** The integer read off a single observation. *)
Definition pulled (r : result (list Observation)) : option Z :=
  match r with
  | Ok [o] _ => match value o with Int z => Some z | Float _ => None end
  | _ => None
  end.

End Run.

(** ** The specification's rate estimator, and sample worlds *)

(** The estimator as the specification words it: [sample(currentTotal)]
    computes [(currentTotal - previousTotal) / max(epsilon, now -
    previousTimestamp)] and then stores [currentTotal] and [now]. *)
Module RateSpec.

Record estimator := mkEstimator {
  previousTotal : Z;
  previousTimestamp : float
}.

Definition sample (epsilon now : float) (currentTotal : Z) (st : estimator)
  : option (float * estimator) :=
  match PyNum.float_of_int (currentTotal - previousTotal st) with
  | Some d =>
      Some ((d / PyNum.max epsilon (now - previousTimestamp st))%float,
            mkEstimator currentTotal now)
  | None => None
  end.

(** The estimator state held in the module variables [last_total] and
    [last_rate_calc]. *)
Definition of_world (w : world) : estimator :=
  mkEstimator (last_total w) (last_rate_calc w).

End RateSpec.

(** The reading [time.time()] returns next. *)
Definition now_of (w : world) : float := clock (environ w) (ticks (environ w)).

(** The first key [k] of a record. *)
Fixpoint assoc {V} (k : string) (l : list (string * V)) : option V :=
  match l with
  | [] => None
  | (k', v) :: r => if String.eqb k k' then Some v else assoc k r
  end.

(** [t[k][field]] as a pure lookup. *)
Definition cell (t : gmap string (gmap string Z)) (k field : string) : option Z :=
  match t !! k with
  | Some d => d !! field
  | None => None
  end.

Module Sample.

(** A clock that stands at 5 seconds, a random source that counts by 1000, a
    writable log file. *)
Definition env5 : env :=
  mkEnv (fun _ => 5%float) 0 (fun n => N.of_nat (1000 * n)) 0
        (fun _ => "2024-01-01T00:00:05") None.

(** A full disk: every write fails after the first eight characters of the
    line have reached the file. *)
Definition disk_full : sink_failure :=
  mkFailure "No space left on device" (fun _ line => [substring 0 8 line]).

(** The same environment with a log file that cannot be written. *)
Definition env_full : env :=
  mkEnv (fun _ => 5%float) 0 (fun n => N.of_nat (1000 * n)) 0
        (fun _ => "2024-01-01T00:00:05") (Some disk_full).

(** The estimator holds total 100 taken at time 0; the totals now add up
    to 150 and the clock reads 5. *)
Definition rate_world : world :=
  mkWorld 75 75 0%float 100 Demo.src_state0 Demo.dst_state0
          (mkTracer [] []) (mkHandler 0 [] []) env5.

Definition an_item : Demo.item := Demo.mkItem "source1" "dest1" 512 "ok" 0.

End Sample.

(** ** Reading the tables *)

(** The value of a cell, 0 when it is absent. *)
Definition reading (t : gmap string (gmap string Z)) (k field : string) : Z :=
  default 0 (cell t k field).

(** An entity with its two cumulative counters in a table. *)
Definition tracked (t : gmap string (gmap string Z)) (k : string) : Prop :=
  is_Some (cell t k "packets") /\ is_Some (cell t k "bytes").

(** How one pull changes the counters of an entity: [add_pk] more packets,
    within [[lo, hi]], of [r] bytes each, within [[64, 1200]]. *)
Definition bumped (lo hi : Z) (t t' : gmap string (gmap string Z)) (k : string) : Prop :=
  exists add_pk r,
    lo <= add_pk <= hi /\ 64 <= r <= 1200 /\
    cell t' k "packets" = Some (reading t k "packets" + add_pk) /\
    cell t' k "bytes" = Some (reading t k "bytes" + add_pk * r).

(** The observations that report the cells of a source, of a destination. *)
Definition src_report (t : gmap string (gmap string Z)) (s : string) : list Observation :=
  [mkObservation (Int (reading t s "packets")) (Demo.src_labels s "packets");
   mkObservation (Int (reading t s "bytes")) (Demo.src_labels s "bytes");
   mkObservation (Int (reading t s "last")) (Demo.src_labels s "last")].

Definition dst_report (t : gmap string (gmap string Z)) (d : string) : list Observation :=
  [mkObservation (Int (reading t d "packets")) (Demo.dst_labels d "packets");
   mkObservation (Int (reading t d "bytes")) (Demo.dst_labels d "bytes")].

(** The [i]-th next draw of [random.randint(lo, hi)]. *)
Definition draw (lo hi : Z) (w : world) (i : nat) : Z :=
  lo + Z.of_N (entropy (environ w) (i + draws (environ w))%nat) `mod` (hi - lo + 1).

(** The dictionary of a source, of a destination, after one pass of the loop. *)
Definition src_after (now p b add_pk r : Z) (d : gmap string Z) : gmap string Z :=
  <["last" := now]> (<["bytes" := b + add_pk * r]> (<["packets" := p + add_pk]> d)).

Definition dst_after (p b add_pk r : Z) (d : gmap string Z) : gmap string Z :=
  <["bytes" := b + add_pk * r]> (<["packets" := p + add_pk]> d).

(** ** Reading the log and the machine *)

(** The world after the handler tried to write [line]: the line is in the
    file, or, when the write failed, what still landed of it is in the file
    and a report is on [sys.stderr]. *)
Definition write_outcome (line : string) (w : world) : world :=
  let h := handler w in
  match sink_error (environ w) with
  | None =>
      set_handler (mkHandler (lock_depth h) (log_lines h ++ [line])%list
                             (stderr_lines h)) w
  | Some f =>
      set_handler (mkHandler (lock_depth h)
                             (log_lines h ++ landed f (length (stderr_lines h)) line)%list
                             (stderr_lines h ++ ["--- Logging error ---"])%list) w
  end.

(** The correlation identity a record emitted in [w] receives. *)
Definition tid_of (w : world) : option string :=
  let t := trace_id (hd Trace.INVALID_SPAN (active (tracer w))) in
  if (t =? 0)%N then None else Some (PyStr.format_032x t).

(** The record [emit_item] builds for [it] in [w]. *)
Definition record_of (it : Demo.item) (w : world) : list (string * json) :=
  Demo.log_record (calendar (environ w) (now_of w)) it (tid_of w).

(** The line of the log file that holds a record. *)
Definition line_of (record : list (string * json)) : string :=
  Json.dumps record ++ PyStr.newline.

(** The state shared by the main loop and the metric reader. *)
Definition shared (w : world)
  : Z * Z * (float * Z) * gmap string (gmap string Z) * gmap string (gmap string Z) :=
  (packets_in_total w, packets_out_total w, (last_rate_calc w, last_total w),
   src_state w, dst_state w).

(** The item the main thread holds, if it is between lines 146 and 180. *)
Definition held_item (pc : Run.main_pc) : option Demo.item :=
  match pc with
  | Run.Line162 it _ _ _ | Run.Line163 it _ _ _ | Run.Line166 it _ _ _ => Some it
  | _ => None
  end.

(** The size of a simulated item is what [random.randint(200, 4000)] drew. *)
Definition item_in_range (pc : Run.main_pc) : Prop :=
  match held_item pc with
  | Some it => 200 <= Demo.size it <= 4000
  | None => True
  end.

(** How far [packets_in_total] is ahead of [packets_out_total]: by the
    packets of the current item between line 162 and line 163, else by 0. *)
Definition lead (pc : Run.main_pc) : Z :=
  match pc with
  | Run.Line163 it _ _ _ => PyNum.floordiv (Demo.size it) 512
  | _ => 0
  end.

(** The spans open on the main thread, innermost first. *)
Definition actives (w : world) : list span := active (tracer w).

(** The part of the world that tracing, timing and random draws leave
    alone: the shared state, the log handler and the state of the sink. *)
Definition settled (w : world) :=
  (shared w, handler w, sink_error (environ w)).

(** The world one iteration of the main loop leaves behind, started right
    after the set-up in the sample environment. *)
Definition after_iteration : world :=
  final (Demo.main_iteration (Demo.boot Sample.env5)).

(** The ["last"] cells of a table, by entity. *)
Definition last_cells (t : gmap string (gmap string Z)) : gmap string Z :=
  omap (fun d : gmap string Z => d !! "last") t.

(** A run of the main thread from the set-up in the sample environment: the
    batch is opened, the first item simulated, then line 162 executed. *)
Module SampleRun.

Definition w_open : world := final (Run.batch_open (Demo.boot Sample.env5)).

Definition w_sim : world := final (Demo.simulate_item w_open).

Definition the_item : Demo.item :=
  match Demo.simulate_item w_open with
  | Ok it _ => it
  | Raise _ _ => Sample.an_item
  end.

Definition w_in : world := final (Demo.incr_in the_item w_sim).

Definition at_line_162 : Run.config := (w_sim, Run.Line162 the_item 2 3 0).

Definition at_line_163 : Run.config := (w_in, Run.Line163 the_item 2 3 0).

(** The world after the whole first pass of the inner loop. *)
Definition w_item : world := final (Demo.process_item 0 w_open).

End SampleRun.

(** The ["last"] cells of the destinations. *)
Definition dst_last (w : world) : gmap string Z := last_cells (dst_state w).

(** The two tables together. *)
Definition tables (w : world) := (src_state w, dst_state w).

(** Every configured entity has its two counters. *)
Definition all_tracked (w : world) : Prop :=
  (forall s, s ∈ Demo.sources -> tracked (src_state w) s) /\
  (forall d, d ∈ Demo.destinations -> tracked (dst_state w) d).

(** A relation between the world before and after a call that holds for
    every call of [m], whether it returns or raises. *)
Definition keeps {A} (R : relation world) (m : M A) : Prop :=
  forall w, R w (final (m w)).

(** Agreement of two worlds on one observation [f] of them. *)
Definition same {X} (f : world -> X) : relation world := fun w w' => f w = f w'.

(** The world after the records were given to the log emitter, in order. *)
Definition emitted (records : list (list (string * json))) (w : world) : world :=
  fold_left (fun w record => write_outcome (line_of record) w) records w.

From Stdlib Require HexadecimalN.

(** ** Further readings of the program *)


(** A character JSON leaves as it is: [' '] to ['~']. *)
Definition printable (c : ascii) : bool :=
  let n := N_of_ascii c in ((32 <=? n) && (n <=? 126))%N.

Fixpoint all_printable (s : string) : bool :=
  match s with
  | EmptyString => true
  | String c r => printable c && all_printable r
  end.

(** [int(s, 16)] on a string of hexadecimal digits. *)
Definition parse_hex (s : string) : option N :=
  option_map N.of_hex_uint (HexadecimalString.NilZero.uint_of_string s).

(** What the program cannot change of its environment: how the clock, the
    random source and the calendar answer, and whether the sink fails. *)
Definition surroundings (w : world) :=
  (clock (environ w), entropy (environ w), calendar (environ w),
   sink_error (environ w)).

(** The state of the rate estimator. *)
Definition rate_state (w : world) : float * Z := (last_rate_calc w, last_total w).

(** An entity whose counters are consistent: a non-negative number of
    packets, and between 64 and 1200 bytes for each of them. *)
Definition plausible (t : gmap string (gmap string Z)) (k : string) : Prop :=
  exists p b,
    cell t k "packets" = Some p /\ cell t k "bytes" = Some b /\
    0 <= p /\ 64 * p <= b <= 1200 * p.

Definition all_plausible (w : world) : Prop :=
  (forall s, s ∈ Demo.sources -> plausible (src_state w) s) /\
  (forall d, d ∈ Demo.destinations -> plausible (dst_state w) d).

(** The world after a first pull of [src_stats] in the sample environment. *)
Definition w_pulled : world :=
  final (Run.callback Run.src_stats_gauge (Demo.boot Sample.env5)).

(** A world in which one source has been lost from its table. *)
Definition w_lost : world :=
  set_src_state (delete "source3" (src_state (Demo.boot Sample.env5)))
                (Demo.boot Sample.env5).

(** An environment whose clock is stuck at infinity. *)
Definition env_stuck : env :=
  mkEnv (fun _ => infinity) 0 (fun n => N.of_nat (1000 * n)) 0
        (fun _ => "2024-01-01T00:00:05") None.

(** The identity of a span: its name, its trace and its own number. *)
Definition span_key (s : span) : string * N * N :=
  (span_name s, trace_id s, span_id s).

(** The spans open on the main thread, by identity. *)
Definition open_spans (w : world) : list (string * N * N) :=
  map span_key (actives w).

(** Where the spans stand for a position of the main thread: none open
    between iterations, the root span alone inside a batch. *)
Definition batch_span (pc : Run.main_pc) (w : world) : Prop :=
  match pc with
  | Run.LoopHead => actives w = []
  | _ =>
      exists root,
        actives w = [root] /\ span_name root = "process_batch" /\
        trace_id root <> 0%N /\
        tid_of w = Some (PyStr.format_032x (trace_id root))
  end.

(** The sample run one statement further: line 163 executed. *)
Definition w_out : world := final (Demo.incr_out SampleRun.the_item SampleRun.w_in).

Definition at_line_166 : Run.config := (w_out, Run.Line166 SampleRun.the_item 2 3 0).


(** ** A whole iteration *)

(** The packets a list of simulated items adds to each total, and the
    latency it adds to the batch. *)
Definition packets_of (items : list (string * Demo.item)) : Z :=
  foldr (fun x acc => Demo.size (snd x) / 512 + acc) 0 items.

Definition latency_of (items : list (string * Demo.item)) : Z :=
  foldr (fun x acc => Demo.latency_ms (snd x) + acc) 0 items.

(** The record of an item stamped [fst x], under the trace [T]. *)
Definition item_record (T : N) (x : string * Demo.item) : list (string * json) :=
  Demo.log_record (fst x) (snd x) (Some (PyStr.format_032x T)).

(** What the draws of lines 146-149 guarantee of an item. *)
Definition item_drawn (x : string * Demo.item) : Prop :=
  200 <= Demo.size (snd x) <= 4000 /\
  (Demo.status (snd x) = "ok" \/ Demo.status (snd x) = "error") /\
  In (Demo.src (snd x)) Demo.sources /\ In (Demo.dst (snd x)) Demo.destinations.

(** A span of trace [T] with the given name and no attribute. *)
Definition stage_span (T : N) (name : string) (s : span) : Prop :=
  span_name s = name /\ trace_id s = T /\ span_attributes s = [].

(** The names of the spans of [n] items, in the order they end. *)
Definition stage_names (n : nat) : list string :=
  concat (repeat ["ingest"; "transform"; "store"] n).

(** ** Failures *)


(** * Properties *)

Import Demo.

(** ** The helpers on sample values *)

Example format_032x_255 :
  PyStr.format_032x 255 = "000000000000000000000000000000ff".
Proof. reflexivity. Qed.

Example float_of_int_examples :
  PyNum.float_of_int 50 = Some 50%float /\
  PyNum.float_of_int (- 3) = Some (-3)%float /\
  PyNum.float_of_int (2 ^ 1024) = None.
Proof. vm_compute. repeat split. Qed.

Example int_of_float_examples :
  PyNum.int_of_float 1730000000.75%float = Some 1730000000 /\
  PyNum.int_of_float (-2.5)%float = Some (-2) /\
  PyNum.int_of_float infinity = None /\
  PyNum.int_of_float nan = None.
Proof. vm_compute. repeat split. Qed.

Example max_examples :
  PyNum.max 0.001 0%float = 0.001%float /\
  PyNum.max 0.001 5%float = 5%float /\
  PyNum.max 0.001 nan = 0.001%float /\
  PyNum.max 0.001 (-1)%float = 0.001%float.
Proof. vm_compute. repeat split. Qed.

Example entity_names :
  sources = ["source1"; "source2"; "source3"; "source4"; "source5"] /\
  destinations = ["dest1"; "dest2"].
Proof. split; reflexivity. Qed.

Example dumps_example :
  let q := String PyStr.dquote EmptyString in
  Json.dumps [("n", JInt (-5)); ("t", JNull); ("s", JStr "a b")]
  = "{" ++ q ++ "n" ++ q ++ ":-5," ++ q ++ "t" ++ q ++ ":null,"
        ++ q ++ "s" ++ q ++ ":" ++ q ++ "a b" ++ q ++ "}".
Proof. vm_compute. reflexivity. Qed.

(** ** Runs of composed calls *)

Lemma bind_Ok_inv {A B} (m : M A) (f : A -> M B) w b w2 :
  bind m f w = Ok b w2 -> exists a w1, m w = Ok a w1 /\ f a w1 = Ok b w2.
Proof.
  unfold bind. destruct (m w) as [a w1 | e w1]; [eauto | discriminate].
Qed.

Lemma finally_Ok_inv {A} (m : M A) (c : M unit) w a w2 :
  finally m c w = Ok a w2 -> exists w1, m w = Ok a w1 /\ c w1 = Ok tt w2.
Proof.
  unfold finally. destruct (m w) as [a' w1 | e w1].
  - destruct (c w1) as [[] w3 | e w3] eqn:Hc; [| discriminate].
    intros [= -> ->]. eauto.
  - destruct (c w1); discriminate.
Qed.

Lemma bind_Ok_run {A B} (m : M A) (f : A -> M B) w a w1 :
  m w = Ok a w1 -> bind m f w = f a w1.
Proof. unfold bind. now intros ->. Qed.


Section Keeps.
Context (R : relation world) `{!PreOrder R}.

Lemma keeps_ret {A} (a : A) : keeps R (ret a).
Proof. intros w. reflexivity. Qed.

Lemma keeps_raise {A} e : keeps R (@raise A e).
Proof. intros w. reflexivity. Qed.

Lemma keeps_gets {A} (f : world -> A) : keeps R (gets f).
Proof. intros w. reflexivity. Qed.

Lemma keeps_modify f : (forall w, R w (f w)) -> keeps R (modify f).
Proof. intros H w. apply H. Qed.

Lemma keeps_bind {A B} (m : M A) (f : A -> M B) :
  keeps R m -> (forall a, keeps R (f a)) -> keeps R (bind m f).
Proof.
  intros Hm Hf w. unfold bind. specialize (Hm w).
  destruct (m w) as [a w1 | e w1]; cbn in *; [| exact Hm].
  etransitivity; [exact Hm | apply Hf].
Qed.

Lemma keeps_finally {A} (m : M A) (c : M unit) :
  keeps R m -> keeps R c -> keeps R (finally m c).
Proof.
  intros Hm Hc w. unfold finally. specialize (Hm w).
  destruct (m w) as [a w1 | e w1]; cbn in *;
    (etransitivity; [exact Hm |]); specialize (Hc w1);
    destruct (c w1); exact Hc.
Qed.

Lemma keeps_catch {A} (m : M A) (h : exn -> M A) :
  keeps R m -> (forall e, keeps R (h e)) -> keeps R (catch m h).
Proof.
  intros Hm Hh w. unfold catch. specialize (Hm w).
  destruct (m w) as [a w1 | e w1]; cbn in *; [exact Hm |].
  etransitivity; [exact Hm | apply Hh].
Qed.

Lemma keeps_for_each {A B} (l : list A) (body : A -> B -> M B) acc :
  (forall x b, keeps R (body x b)) -> keeps R (for_each l body acc).
Proof.
  intros Hb. revert acc. induction l as [| x l IH]; intros acc; cbn.
  - apply keeps_ret.
  - apply keeps_bind; [apply Hb | intros b; apply IH].
Qed.

Lemma keeps_for_range {B} n (body : B -> M B) acc :
  (forall b, keeps R (body b)) -> keeps R (for_range n body acc).
Proof.
  intros Hb. revert acc. induction n as [| n IH]; intros acc; cbn.
  - apply keeps_ret.
  - apply keeps_bind; [apply Hb | intros b; apply IH].
Qed.

Lemma keeps_Ok {A} (m : M A) w a w' : keeps R m -> m w = Ok a w' -> R w w'.
Proof. intros H E. specialize (H w). now rewrite E in H. Qed.

End Keeps.


#[global] Instance same_preorder {X} (f : world -> X) : PreOrder (same f).
Proof. split; [intros w; reflexivity | intros a b c; unfold same; congruence]. Qed.

(** Splits a call into its primitive steps and settles each by computation. *)
Ltac keeps_prim :=
  let w := fresh "w" in
  intros w;
  cbv beta delta [ret raise gets modify
                  PyTime.time PyTime.sleep PyRandom.raw
                  Logging.acquire Logging.release Logging.stream_write
                  Logging.handleError Trace.get_current_span Trace.exit
                  Trace.set_attribute Trace.pop getitem setitem py_int truediv];
  repeat case_match; cbn [final];
  try reflexivity.

Ltac keeps_class := lazymatch goal with |- PreOrder _ => typeclasses eauto end.

Ltac keeps_step :=
  first
    [ apply keeps_bind; [keeps_class | | intros ?]
    | apply keeps_finally; [keeps_class | |]
    | apply keeps_catch; [keeps_class | | intros ?]
    | apply keeps_for_each; [keeps_class | intros ? ?]
    | apply keeps_for_range; [keeps_class | intros ?]
    | apply keeps_ret; keeps_class
    | apply keeps_raise; keeps_class
    | apply keeps_gets; keeps_class
    | match goal with |- keeps _ (if ?b then _ else _) => destruct b end
    | match goal with |- keeps _ (match ?x with _ => _ end) => destruct x end ].

Ltac keeps_unfold :=
  cbv beta delta
      [packets_in_cb packets_out_cb packet_rate_cb src_gauge_cb src_gauge_body
       dst_gauge_cb dst_gauge_body iadd log_json stage simulate_item
       incr_in incr_out current_trace_id emit_item process_item batch_body
       main_iteration Run.batch_open Run.batch_close Run.callback
       PyTime.utcnow_isoformat PyRandom.randint PyRandom.choice PyRandom.random
       Trace.generate_trace_id Trace.generate_span_id Trace.enter
       Trace.start_as_current_span Logging.emit Logging.handle Logging.info].

Ltac keeps_tac := keeps_unfold; repeat keeps_step; try keeps_prim.

(** ** The elapsed time floor *)

(** [max(0.001, x)] is a positive number or [+inf], whatever [x] is (a NaN
    included). *)
Lemma floor_positive x :
  (exists m e, Prim2SF (PyNum.max 0.001 x) = S754_finite false m e) \/
  Prim2SF (PyNum.max 0.001 x) = S754_infinity false.
Proof.
  unfold PyNum.max. destruct (0.001 <? x)%float eqn:H.
  - rewrite ltb_spec in H.
    remember (Prim2SF 0.001) as c eqn:Hc. vm_compute in Hc. subst c.
    destruct (Prim2SF x) as [s | s | | s m e]; simpl in H; try discriminate.
    + destruct s; try discriminate. now right.
    + destruct s; try discriminate. left; eauto.
  - left. vm_compute. eauto.
Qed.

Lemma floor_nonzero x : (PyNum.max 0.001 x =? 0)%float = false.
Proof.
  rewrite FloatAxioms.eqb_spec.
  change (Prim2SF 0) with (S754_zero false).
  destruct (floor_positive x) as [(m & e & ->) | ->]; reflexivity.
Qed.

Lemma zero_div_floor x : (0 / PyNum.max 0.001 x)%float = 0%float.
Proof.
  apply Prim2SF_inj. rewrite div_spec.
  change (Prim2SF 0) with (S754_zero false).
  destruct (floor_positive x) as [(m & e & ->) | ->]; reflexivity.
Qed.

(** ** The rate estimator *)

(** What one call of [packet_rate_cb] does, in closed form. *)
Lemma packet_rate_cb_run w :
  packet_rate_cb w =
  match PyNum.float_of_int (packets_in_total w + packets_out_total w - last_total w) with
  | Some d =>
      Ok [mkObservation
            (Float (d / PyNum.max 0.001 (now_of w - last_rate_calc w))%float)
            host_labels]
         (set_last_rate_calc (now_of w)
            (set_last_total (packets_in_total w + packets_out_total w) (PyTime.tick w)))
  | None => Raise OverflowError (PyTime.tick w)
  end.
Proof.
  unfold packet_rate_cb, bind, gets, modify, ret, PyTime.time, truediv, now_of. cbn.
  destruct (PyNum.float_of_int _); [| reflexivity].
  rewrite floor_nonzero. reflexivity.
Qed.

(** C1. [packet_rate_cb] is the specification's [sample] with floor 0.001 on
    the sum of the two totals: it returns [(current - last_total) /
    max(0.001, now - last_rate_calc)] and then stores [current] and [now];
    it never raises a division error; and with [last_total = 100] taken at
    time 0, a call at time 5 on total 150 returns 10.0, after which the next
    call, whatever the clock then reads, returns a finite value that is not
    negative. *)
Theorem packet_rate_cb_sample (w : world) :
  let now := now_of w in
  let current := packets_in_total w + packets_out_total w in
  (forall rate est,
      RateSpec.sample 0.001 now current (RateSpec.of_world w) = Some (rate, est) ->
      exists w',
        packet_rate_cb w = Ok [mkObservation (Float rate) host_labels] w' /\
        RateSpec.of_world w' = est /\
        last_total w' = current /\ last_rate_calc w' = now) /\
  (forall w', packet_rate_cb w <> Raise ZeroDivisionError w') /\
  (last_total w = 100 -> last_rate_calc w = 0%float ->
   current = 150 -> now = 5%float ->
   exists w1,
     packet_rate_cb w = Ok [mkObservation (Float 10) host_labels] w1 /\
     exists rate2 w2,
       packet_rate_cb w1 = Ok [mkObservation (Float rate2) host_labels] w2 /\
       is_finite rate2 = true /\ (0 <=? rate2)%float = true).
Proof.
  intros now current. split; [| split].
  - intros rate est Hs. unfold RateSpec.sample in Hs. cbn in Hs.
    rewrite packet_rate_cb_run. fold now current.
    destruct (PyNum.float_of_int (current - last_total w)); [| discriminate].
    injection Hs as <- <-. eexists. split; [reflexivity |]. repeat split.
  - intros w'. rewrite packet_rate_cb_run.
    destruct (PyNum.float_of_int _); discriminate.
  - intros Ht Hl Hc Hn. rewrite packet_rate_cb_run. fold now current.
    rewrite Ht, Hl, Hc, Hn.
    change (PyNum.float_of_int (150 - 100)) with (Some 50%float).
    eexists. split; [reflexivity |].
    rewrite packet_rate_cb_run. cbn. fold current. rewrite Hc.
    change (PyNum.float_of_int (150 - 150)) with (Some 0%float).
    cbv beta iota. rewrite zero_div_floor.
    eexists _, _. split; [reflexivity |]. split; reflexivity.
Qed.

Lemma packet_rate_cb_sample_witness :
  exists w1,
    packet_rate_cb Sample.rate_world = Ok [mkObservation (Float 10) host_labels] w1 /\
    exists rate2 w2,
      packet_rate_cb w1 = Ok [mkObservation (Float rate2) host_labels] w2 /\
      is_finite rate2 = true /\ (0 <=? rate2)%float = true.
Proof.
  apply (proj2 (proj2 (packet_rate_cb_sample Sample.rate_world))); reflexivity.
Defined.

(** ** The two tables *)

Lemma getitem_run t k f w d v :
  load t w !! k = Some d -> d !! f = Some v -> getitem t k f w = Ok v w.
Proof. unfold getitem. now intros -> ->. Qed.

Lemma setitem_run t k f v w d :
  load t w !! k = Some d ->
  setitem t k f v w = Ok tt (store t (<[k := <[f := v]> d]> (load t w)) w).
Proof. unfold setitem. now intros ->. Qed.

Lemma iadd_run t k f delta w d v :
  load t w !! k = Some d -> d !! f = Some v ->
  iadd t k f delta w = Ok tt (store t (<[k := <[f := v + delta]> d]> (load t w)) w).
Proof.
  intros Hd Hv. unfold iadd.
  rewrite (bind_Ok_run _ _ _ _ _ (getitem_run _ _ _ _ _ _ Hd Hv)).
  now apply setitem_run.
Qed.

Lemma cell_insert_ne t k k' d f : k <> k' -> cell (<[k := d]> t) k' f = cell t k' f.
Proof. intros H. unfold cell. now rewrite lookup_insert_ne. Qed.

Lemma cell_Some t k d f v : t !! k = Some d -> d !! f = Some v -> cell t k f = Some v.
Proof. unfold cell. now intros ->. Qed.

Lemma tracked_inv t k :
  tracked t k -> exists d p b,
    t !! k = Some d /\ d !! "packets" = Some p /\ d !! "bytes" = Some b.
Proof.
  unfold tracked, cell. intros [[p Hp] [b Hb]].
  destruct (t !! k) as [d |]; [eauto 6 | discriminate].
Qed.

Lemma draw_bounds lo hi w i : lo <= hi -> lo <= draw lo hi w i <= hi.
Proof.
  intros H. unfold draw.
  pose proof (Z.mod_pos_bound (Z.of_N (entropy (environ w) (i + draws (environ w))%nat))
                (hi - lo + 1)). lia.
Qed.

Lemma randint_run lo hi w :
  lo <= hi -> PyRandom.randint lo hi w = Ok (draw lo hi w 0) (PyRandom.advance w).
Proof.
  intros H. unfold PyRandom.randint. destruct (Z.ltb_spec hi lo); [lia |]. reflexivity.
Qed.

Ltac table_simpl :=
  cbn [load store SRC DST set_src_state set_dst_state src_state dst_state
       PyRandom.advance set_environ environ].

(** One pass of the source loop on a tracked source. *)
Lemma src_gauge_body_run now s out w d p b :
  src_state w !! s = Some d -> d !! "packets" = Some p -> d !! "bytes" = Some b ->
  let add_pk := draw 50 200 w 0 in
  let r := draw 64 1200 w 1 in
  src_gauge_body now s out w =
  Ok (out ++ [mkObservation (Int (p + add_pk)) (src_labels s "packets");
              mkObservation (Int (b + add_pk * r)) (src_labels s "bytes");
              mkObservation (Int now) (src_labels s "last")])%list
     (set_src_state (<[s := src_after now p b add_pk r d]> (src_state w))
        (PyRandom.advance (PyRandom.advance w))).
Proof.
  intros Hd Hp Hb add_pk r.
  unfold src_gauge_body.
  rewrite (bind_Ok_run _ _ _ _ _ (randint_run 50 200 w ltac:(lia))).
  rewrite (bind_Ok_run _ _ _ _ _ (randint_run 64 1200 _ ltac:(lia))).
  change (draw 64 1200 (PyRandom.advance w) 0) with r. fold add_pk.
  erewrite bind_Ok_run by (eapply iadd_run; [exact Hd | exact Hp]).
  erewrite bind_Ok_run
    by (eapply iadd_run; table_simpl; [apply lookup_insert_eq | ];
        rewrite lookup_insert_ne by discriminate; exact Hb).
  erewrite bind_Ok_run by (eapply setitem_run; table_simpl; apply lookup_insert_eq).
  table_simpl. rewrite !insert_insert_eq.
  erewrite bind_Ok_run
    by (eapply getitem_run; table_simpl; [apply lookup_insert_eq |];
        rewrite !lookup_insert_ne by discriminate; apply lookup_insert_eq).
  erewrite bind_Ok_run
    by (eapply getitem_run; table_simpl; [apply lookup_insert_eq |];
        rewrite !lookup_insert_ne by discriminate; apply lookup_insert_eq).
  erewrite bind_Ok_run
    by (eapply getitem_run; table_simpl; [apply lookup_insert_eq |];
        apply lookup_insert_eq).
  unfold ret. rewrite <- !app_assoc. reflexivity.
Qed.

(** One pass of the destination loop on a tracked destination. *)
Lemma dst_gauge_body_run s out w d p b :
  dst_state w !! s = Some d -> d !! "packets" = Some p -> d !! "bytes" = Some b ->
  let add_pk := draw 40 160 w 0 in
  let r := draw 64 1200 w 1 in
  dst_gauge_body s out w =
  Ok (out ++ [mkObservation (Int (p + add_pk)) (dst_labels s "packets");
              mkObservation (Int (b + add_pk * r)) (dst_labels s "bytes")])%list
     (set_dst_state (<[s := dst_after p b add_pk r d]> (dst_state w))
        (PyRandom.advance (PyRandom.advance w))).
Proof.
  intros Hd Hp Hb add_pk r.
  unfold dst_gauge_body.
  rewrite (bind_Ok_run _ _ _ _ _ (randint_run 40 160 w ltac:(lia))).
  rewrite (bind_Ok_run _ _ _ _ _ (randint_run 64 1200 _ ltac:(lia))).
  change (draw 64 1200 (PyRandom.advance w) 0) with r. fold add_pk.
  erewrite bind_Ok_run by (eapply iadd_run; [exact Hd | exact Hp]).
  erewrite bind_Ok_run
    by (eapply iadd_run; table_simpl; [apply lookup_insert_eq | ];
        rewrite lookup_insert_ne by discriminate; exact Hb).
  table_simpl. rewrite !insert_insert_eq.
  erewrite bind_Ok_run
    by (eapply getitem_run; table_simpl; [apply lookup_insert_eq |];
        rewrite !lookup_insert_ne by discriminate; apply lookup_insert_eq).
  erewrite bind_Ok_run
    by (eapply getitem_run; table_simpl; [apply lookup_insert_eq |];
        apply lookup_insert_eq).
  unfold ret. rewrite <- !app_assoc. reflexivity.
Qed.

(** The source loop over distinct tracked sources: every source is bumped
    once and stamped, and the observations report the cells as they are when
    the loop ends. *)
Lemma src_loop now l :
  NoDup l -> forall out w, (forall s, s ∈ l -> tracked (src_state w) s) ->
  exists w',
    for_each l (src_gauge_body now) out w =
      Ok (out ++ flat_map (src_report (src_state w')) l)%list w' /\
    (forall k, k ∉ l -> src_state w' !! k = src_state w !! k) /\
    (forall s, s ∈ l ->
       bumped 50 200 (src_state w) (src_state w') s /\
       cell (src_state w') s "last" = Some now).
Proof.
  induction 1 as [| s l Hs Hl IH]; intros out w Hok.
  - exists w. cbn. rewrite app_nil_r.
    split; [reflexivity |]. split; intros k Hk; [reflexivity | inversion Hk].
  - destruct (tracked_inv _ _ (Hok s ltac:(left))) as (d & p & b & Hd & Hp & Hb).
    pose proof (src_gauge_body_run now s out w d p b Hd Hp Hb) as Hrun.
    cbv zeta in Hrun.
    set (add_pk := draw 50 200 w 0) in *. set (r := draw 64 1200 w 1) in *.
    set (w1 := set_src_state _ _) in Hrun.
    assert (Hw1 : src_state w1 = <[s := src_after now p b add_pk r d]> (src_state w))
      by reflexivity.
    destruct (IH (out ++ src_report (src_state w1) s)%list w1) as (w' & Hfor & Hframe & Hent).
    { intros s' Hs'. assert (s <> s') by (intros ->; contradiction).
      unfold tracked. rewrite Hw1, !cell_insert_ne by done.
      apply Hok. now right. }
    assert (Hs' : src_state w' !! s = Some (src_after now p b add_pk r d)).
    { rewrite (Hframe s Hs), Hw1. apply lookup_insert_eq. }
    assert (Hrep : forall t, t !! s = Some (src_after now p b add_pk r d) ->
              src_report t s =
              [mkObservation (Int (p + add_pk)) (src_labels s "packets");
               mkObservation (Int (b + add_pk * r)) (src_labels s "bytes");
               mkObservation (Int now) (src_labels s "last")]).
    { intros t Ht. unfold src_report, reading, cell. rewrite Ht.
      unfold src_after. now simplify_map_eq. }
    exists w'. split; [| split].
    + cbn [for_each flat_map]. rewrite (bind_Ok_run _ _ _ _ _ Hrun).
      rewrite (Hrep _ Hs'). rewrite <- (Hrep (src_state w1)) at 1
        by (rewrite Hw1; apply lookup_insert_eq).
      rewrite Hfor. rewrite (Hrep (src_state w1)) by (rewrite Hw1; apply lookup_insert_eq).
      now rewrite <- app_assoc.
    + intros k Hk. apply not_elem_of_cons in Hk as [Hne Hk].
      rewrite (Hframe k Hk), Hw1. now rewrite lookup_insert_ne.
    + intros s' Hin. apply elem_of_cons in Hin as [-> | Hin].
      * split.
        -- exists add_pk, r. split; [apply draw_bounds; lia |].
           split; [apply draw_bounds; lia |].
           unfold reading. rewrite (cell_Some _ _ _ _ _ Hd Hp), (cell_Some _ _ _ _ _ Hd Hb).
           split; (eapply cell_Some; [exact Hs' |]); unfold src_after; now simplify_map_eq.
        -- eapply cell_Some; [exact Hs' |]. unfold src_after. now simplify_map_eq.
      * assert (s <> s') by (intros ->; contradiction).
        destruct (Hent s' Hin) as [(a & r' & Ha & Hr & Hpk & Hby) Hlast].
        split; [| exact Hlast].
        exists a, r'. repeat split; try lia.
        -- rewrite Hpk. unfold reading. now rewrite Hw1, cell_insert_ne.
        -- rewrite Hby. unfold reading. now rewrite Hw1, cell_insert_ne.
Qed.

(** The destination loop, likewise; the ["last"] cells stay as they were. *)
Lemma dst_loop l :
  NoDup l -> forall out w, (forall s, s ∈ l -> tracked (dst_state w) s) ->
  exists w',
    for_each l dst_gauge_body out w =
      Ok (out ++ flat_map (dst_report (dst_state w')) l)%list w' /\
    (forall k, k ∉ l -> dst_state w' !! k = dst_state w !! k) /\
    (forall s, s ∈ l -> bumped 40 160 (dst_state w) (dst_state w') s).
Proof.
  induction 1 as [| s l Hs Hl IH]; intros out w Hok.
  - exists w. cbn. rewrite app_nil_r.
    split; [reflexivity |]. split; intros k Hk; [reflexivity | inversion Hk].
  - destruct (tracked_inv _ _ (Hok s ltac:(left))) as (d & p & b & Hd & Hp & Hb).
    pose proof (dst_gauge_body_run s out w d p b Hd Hp Hb) as Hrun.
    cbv zeta in Hrun.
    set (add_pk := draw 40 160 w 0) in *. set (r := draw 64 1200 w 1) in *.
    set (w1 := set_dst_state _ _) in Hrun.
    assert (Hw1 : dst_state w1 = <[s := dst_after p b add_pk r d]> (dst_state w))
      by reflexivity.
    destruct (IH (out ++ dst_report (dst_state w1) s)%list w1) as (w' & Hfor & Hframe & Hent).
    { intros s' Hs'. assert (s <> s') by (intros ->; contradiction).
      unfold tracked. rewrite Hw1, !cell_insert_ne by done.
      apply Hok. now right. }
    assert (Hs' : dst_state w' !! s = Some (dst_after p b add_pk r d)).
    { rewrite (Hframe s Hs), Hw1. apply lookup_insert_eq. }
    assert (Hrep : forall t, t !! s = Some (dst_after p b add_pk r d) ->
              dst_report t s =
              [mkObservation (Int (p + add_pk)) (dst_labels s "packets");
               mkObservation (Int (b + add_pk * r)) (dst_labels s "bytes")]).
    { intros t Ht. unfold dst_report, reading, cell. rewrite Ht.
      unfold dst_after. now simplify_map_eq. }
    exists w'. split; [| split].
    + cbn [for_each flat_map]. rewrite (bind_Ok_run _ _ _ _ _ Hrun).
      rewrite (Hrep _ Hs'). rewrite <- (Hrep (dst_state w1)) at 1
        by (rewrite Hw1; apply lookup_insert_eq).
      rewrite Hfor. rewrite (Hrep (dst_state w1)) by (rewrite Hw1; apply lookup_insert_eq).
      now rewrite <- app_assoc.
    + intros k Hk. apply not_elem_of_cons in Hk as [Hne Hk].
      rewrite (Hframe k Hk), Hw1. now rewrite lookup_insert_ne.
    + intros s' Hin. apply elem_of_cons in Hin as [-> | Hin].
      * exists add_pk, r. split; [apply draw_bounds; lia |].
        split; [apply draw_bounds; lia |].
        unfold reading. rewrite (cell_Some _ _ _ _ _ Hd Hp), (cell_Some _ _ _ _ _ Hd Hb).
        split; (eapply cell_Some; [exact Hs' |]); unfold dst_after; now simplify_map_eq.
      * assert (s <> s') by (intros ->; contradiction).
        destruct (Hent s' Hin) as (a & r' & Ha & Hr & Hpk & Hby).
        exists a, r'. repeat split; try lia.
        -- rewrite Hpk. unfold reading. now rewrite Hw1, cell_insert_ne.
        -- rewrite Hby. unfold reading. now rewrite Hw1, cell_insert_ne.
Qed.

Lemma sources_NoDup : NoDup sources.
Proof. apply (bool_decide_unpack _). vm_compute. reflexivity. Qed.

Lemma destinations_NoDup : NoDup destinations.
Proof. apply (bool_decide_unpack _). vm_compute. reflexivity. Qed.

Lemma py_int_run x z w : PyNum.int_of_float x = Some z -> py_int x w = Ok z w.
Proof. unfold py_int. now intros ->. Qed.

(** A pull of [src_stats] on tracked sources, when the clock reading has an
    integer part [now]. *)
Lemma src_gauge_cb_run w now :
  (forall s, s ∈ sources -> tracked (src_state w) s) ->
  PyNum.int_of_float (now_of w) = Some now ->
  exists w',
    src_gauge_cb w = Ok (flat_map (src_report (src_state w')) sources) w' /\
    (forall k, k ∉ sources -> src_state w' !! k = src_state w !! k) /\
    (forall s, s ∈ sources ->
       bumped 50 200 (src_state w) (src_state w') s /\
       cell (src_state w') s "last" = Some now).
Proof.
  intros Hok Hnow. unfold src_gauge_cb.
  assert (Ht : PyTime.time w = Ok (now_of w) (PyTime.tick w)) by reflexivity.
  rewrite (bind_Ok_run _ _ _ _ _ Ht).
  rewrite (bind_Ok_run _ _ _ _ _ (py_int_run _ _ _ Hnow)).
  destruct (src_loop now sources sources_NoDup [] (PyTime.tick w) Hok)
    as (w' & Hrun & Hframe & Hent).
  exists w'. split; [exact Hrun |]. split; assumption.
Qed.

(** A pull of [dst_stats] on tracked destinations. *)
Lemma dst_gauge_cb_run w :
  (forall d, d ∈ destinations -> tracked (dst_state w) d) ->
  exists w',
    dst_gauge_cb w = Ok (flat_map (dst_report (dst_state w')) destinations) w' /\
    (forall k, k ∉ destinations -> dst_state w' !! k = dst_state w !! k) /\
    (forall d, d ∈ destinations -> bumped 40 160 (dst_state w) (dst_state w') d).
Proof.
  intros Hok. unfold dst_gauge_cb.
  destruct (dst_loop destinations destinations_NoDup [] w Hok)
    as (w' & Hrun & Hframe & Hent).
  exists w'. split; [exact Hrun |]. split; assumption.
Qed.

(** At the start every configured entity is tracked, with zero counters. *)
Lemma boot_tracked e : all_tracked (boot e).
Proof.
  split; intros k Hk;
    repeat (apply elem_of_cons in Hk as [-> | Hk]);
    solve [inversion Hk | split; vm_compute; eauto].
Qed.

(** C3. On each pull of [src_stats] (of [dst_stats]), for every configured
    source (destination) an increment within 50..200 (40..160) packets and a
    size within 64..1200 bytes per packet are drawn, the cumulative packet
    and byte counters grow by the increment and by increment times size, and
    the observations emitted carry the counters as they are after the
    increment, not the increment. *)
Theorem gauge_callbacks_report_cumulative (w : world) :
  all_tracked w ->
  (forall now,
      PyNum.int_of_float (now_of w) = Some now ->
      exists w',
        src_gauge_cb w = Ok (flat_map (src_report (src_state w')) sources) w' /\
        forall s, s ∈ sources -> bumped 50 200 (src_state w) (src_state w') s) /\
  (exists w',
      dst_gauge_cb w = Ok (flat_map (dst_report (dst_state w')) destinations) w' /\
      forall d, d ∈ destinations -> bumped 40 160 (dst_state w) (dst_state w') d).
Proof.
  intros [Hs Hd]. split.
  - intros now Hnow.
    destruct (src_gauge_cb_run w now Hs Hnow) as (w' & Hrun & _ & Hent).
    exists w'. split; [exact Hrun |]. intros s Hin. apply (Hent s Hin).
  - destruct (dst_gauge_cb_run w Hd) as (w' & Hrun & _ & Hent).
    exists w'. split; [exact Hrun |]. exact Hent.
Qed.

Lemma gauge_callbacks_report_cumulative_witness :
  (exists w',
      src_gauge_cb (boot Sample.env5) =
        Ok (flat_map (src_report (src_state w')) sources) w' /\
      forall s, s ∈ sources ->
        bumped 50 200 (src_state (boot Sample.env5)) (src_state w') s) /\
  (exists w',
      dst_gauge_cb (boot Sample.env5) =
        Ok (flat_map (dst_report (dst_state w')) destinations) w' /\
      forall d, d ∈ destinations ->
        bumped 40 160 (dst_state (boot Sample.env5)) (dst_state w') d).
Proof.
  destruct (gauge_callbacks_report_cumulative (boot Sample.env5)
              (boot_tracked Sample.env5)) as [Hsrc Hdst].
  split; [| exact Hdst].
  apply (Hsrc 5). vm_compute. reflexivity.
Defined.

Example src_gauge_cb_first_pull :
  exists w', src_gauge_cb (boot Sample.env5) = Ok
    [ mkObservation (Int 50) (src_labels "source1" "packets");
      mkObservation (Int 53200) (src_labels "source1" "bytes");
      mkObservation (Int 5) (src_labels "source1" "last");
      mkObservation (Int 87) (src_labels "source2" "packets");
      mkObservation (Int 68730) (src_labels "source2" "bytes");
      mkObservation (Int 5) (src_labels "source2" "last");
      mkObservation (Int 124) (src_labels "source3" "packets");
      mkObservation (Int 63984) (src_labels "source3" "bytes");
      mkObservation (Int 5) (src_labels "source3" "last");
      mkObservation (Int 161) (src_labels "source4" "packets");
      mkObservation (Int 38962) (src_labels "source4" "bytes");
      mkObservation (Int 5) (src_labels "source4" "last");
      mkObservation (Int 198) (src_labels "source5" "packets");
      mkObservation (Int 218790) (src_labels "source5" "bytes");
      mkObservation (Int 5) (src_labels "source5" "last") ] w'.
Proof. eexists. vm_compute. reflexivity. Qed.

(** ** The log emitter *)

(** [log_json] always returns: the line is written, or the failed write is
    reported on [sys.stderr] by the handler; the lock is back where it was. *)
Lemma log_json_run record w :
  log_json record w = Ok tt (write_outcome (line_of record) w).
Proof.
  unfold log_json, Logging.info, Logging.handle, Logging.emit, write_outcome, line_of.
  unfold bind, finally, catch, Logging.acquire, Logging.release, Logging.stream_write,
    Logging.handleError, modify.
  destruct w as [pin pout lrc lt ss ds tr [d lines err] ev]. cbn.
  destruct (sink_error ev); reflexivity.
Qed.

(** [emit_item] in closed form. *)
Lemma emit_item_run it w :
  emit_item it w = Ok tt (write_outcome (line_of (record_of it w)) (PyTime.tick w)).
Proof.
  unfold emit_item, current_trace_id, PyTime.utcnow_isoformat, Trace.get_current_span.
  unfold bind, gets, ret, PyTime.time.
  rewrite log_json_run. reflexivity.
Qed.

(** ** One simulated item *)

Lemma randint_Ok_inv lo hi w z w' :
  PyRandom.randint lo hi w = Ok z w' -> lo <= z <= hi /\ w' = PyRandom.advance w.
Proof.
  unfold PyRandom.randint. destruct (Z.ltb_spec hi lo); [discriminate |].
  intros [= <- <-]. split; [| reflexivity].
  pose proof (Z.mod_pos_bound (Z.of_N (entropy (environ w) (draws (environ w))))
                (hi - lo + 1)). lia.
Qed.

Lemma choice_Ok_inv {A} (l : list A) w x w' :
  PyRandom.choice l w = Ok x w' -> In x l /\ w' = PyRandom.advance w.
Proof.
  unfold PyRandom.choice, bind, PyRandom.raw.
  destruct (nth_error l _) as [y |] eqn:E; [| discriminate].
  intros [= <- <-]. split; [eapply nth_error_In; exact E | reflexivity].
Qed.

Ltac inv_bind H :=
  repeat
    match type of H with
    | bind _ _ _ = Ok _ _ =>
        let a := fresh "a" in let w := fresh "w" in
        let H1 := fresh "Hrun" in
        apply bind_Ok_inv in H as (a & w & H1 & H)
    end.

Lemma simulate_item_Ok w it w' :
  simulate_item w = Ok it w' ->
  200 <= size it <= 4000 /\ (status it = "ok" \/ status it = "error") /\
  In (src it) sources /\ In (dst it) destinations.
Proof.
  intros H. unfold simulate_item in H. inv_bind H.
  injection H as <- _. cbn.
  apply randint_Ok_inv in Hrun1 as [? _].
  apply choice_Ok_inv in Hrun as [? _].
  apply choice_Ok_inv in Hrun0 as [? _].
  apply choice_Ok_inv in Hrun2 as [Hst _].
  repeat split; try assumption; try lia.
  cbn in Hst. intuition congruence.
Qed.



Lemma enter_Ok name w u w' :
  Trace.enter name w = Ok u w' ->
  exists root,
    actives w' = root :: actives w /\ trace_id root <> 0%N /\
    settled w' = settled w.
Proof.
  unfold Trace.enter, Trace.get_current_span, Trace.generate_trace_id,
    Trace.generate_span_id, bind, gets, ret, modify, PyRandom.raw.
  set (parent := hd Trace.INVALID_SPAN (active (tracer w))).
  destruct (Trace.is_valid parent) eqn:Hv; intros [= <- <-]; eexists;
    (split; [reflexivity |]); (split; [| reflexivity]).
  - cbn [trace_id]. unfold Trace.is_valid in Hv. apply andb_true_iff in Hv as [Hv _].
    apply negb_true_iff, N.eqb_neq in Hv. exact Hv.
  - cbn [trace_id]. rewrite N.add_1_l. apply N.neq_succ_0.
Qed.


(** From a run [m w = Ok a w'], the agreement of [w] and [w'] on [f]. *)
Ltac frame f H :=
  lazymatch type of H with
  | ?m ?w1 = Ok ?a ?w2 =>
      let F := fresh "Hsame" in
      assert (F : f w2 = f w1)
        by (symmetry; apply (keeps_Ok (same f) m w1 a w2); [keeps_tac | exact H])
  end.

Lemma stage_actives name w u w' :
  stage name w = Ok u w' -> actives w' = actives w.
Proof.
  unfold stage, Trace.start_as_current_span. intros H. inv_bind H.
  apply finally_Ok_inv in H as (w1 & Hbody & Hexit).
  apply enter_Ok in Hrun as (root & Hroot & _ & _).
  frame actives Hbody.
  injection Hexit as <-.
  unfold actives, Trace.pop in *. rewrite Hsame, Hroot. reflexivity.
Qed.

Lemma simulate_item_settled : keeps (same settled) simulate_item.
Proof. keeps_tac. Qed.

Lemma simulate_item_actives w it w' :
  simulate_item w = Ok it w' -> actives w' = actives w.
Proof.
  intros H. unfold simulate_item in H. inv_bind H.
  injection H as _ <-.
  apply stage_actives in Hrun4, Hrun5, Hrun6.
  frame actives Hrun. frame actives Hrun0. frame actives Hrun1.
  frame actives Hrun2. frame actives Hrun3. frame actives Hrun7.
  frame actives Hrun8.
  congruence.
Qed.

Lemma write_outcome_handler line w v :
  handler w = handler v -> sink_error (environ w) = sink_error (environ v) ->
  handler (write_outcome line w) = handler (write_outcome line v).
Proof.
  intros Hh Hs. unfold write_outcome. rewrite Hh, Hs.
  destruct (sink_error (environ v)); reflexivity.
Qed.

Lemma write_outcome_sink line w :
  sink_error (environ (write_outcome line w)) = sink_error (environ w).
Proof. unfold write_outcome. destruct (sink_error (environ w)) eqn:E; cbn; now rewrite E. Qed.



Lemma tid_of_root w root rest :
  actives w = root :: rest -> trace_id root <> 0%N ->
  tid_of w = Some (PyStr.format_032x (trace_id root)).
Proof.
  unfold tid_of, actives. intros -> Hne. cbn [hd].
  apply N.eqb_neq in Hne. now rewrite Hne.
Qed.

Lemma set_attribute_Ok key v w u w' root rest :
  Trace.set_attribute key v w = Ok u w' -> actives w = root :: rest ->
  settled w' = settled w /\
  exists root', actives w' = root' :: rest /\ trace_id root' = trace_id root.
Proof.
  unfold Trace.set_attribute, modify, actives. intros [= _ <-] Hact.
  rewrite Hact. split; [reflexivity |]. eexists. split; reflexivity.
Qed.

Lemma settled_inv w w' :
  settled w' = settled w ->
  packets_in_total w' = packets_in_total w /\
  packets_out_total w' = packets_out_total w /\
  src_state w' = src_state w /\ dst_state w' = dst_state w /\
  handler w' = handler w /\ sink_error (environ w') = sink_error (environ w).
Proof. unfold settled, shared. intros [= -> -> _ _ -> -> -> ->]. repeat split. Qed.




Example iteration_of_three_totals :
  packets_in_total after_iteration = 13 /\ packets_out_total after_iteration = 13 /\
  length (log_lines (handler after_iteration)) = 3%nat.
Proof. vm_compute. repeat split. Qed.

(** ** Executions *)

Lemma reachable_ind (P : Run.config -> Prop) :
  (forall e, P (boot e, Run.LoopHead)) ->
  (forall c c', Run.reachable c -> P c -> Run.step c c' -> P c') ->
  forall c, Run.reachable c -> P c.
Proof.
  intros Hboot Hstep c [e Hrun]. revert c Hrun.
  apply (rtc_ind_r (fun c => P c) (boot e, Run.LoopHead)); [apply Hboot |].
  intros c1 c2 Hrun Hlast IH.
  apply (Hstep c1 c2); [exists e; exact Hrun | exact IH | exact Hlast].
Qed.

Lemma reachable_step c c' : Run.reachable c -> Run.step c c' -> Run.reachable c'.
Proof. intros [e H] Hs. exists e. eapply rtc_r; eassumption. Qed.

Lemma batch_open_settled : keeps (same settled) Run.batch_open.
Proof. keeps_tac. Qed.

Lemma batch_close_settled rc bl : keeps (same settled) (Run.batch_close rc bl).
Proof. keeps_tac. Qed.

Lemma callback_unlocked i : keeps (same (fun w => (packets_in_total w, packets_out_total w, handler w))) (Run.callback i).
Proof. destruct i; keeps_tac. Qed.

(** What a statement of the main thread does to the settled part of the
    world and to the item it holds. *)
Lemma main_step_facts c c' :
  Run.main_step c c' ->
  packets_in_total (fst c') =
    packets_in_total (fst c)
    + match snd c with Run.Line162 it _ _ _ => size it / 512 | _ => 0 end /\
  packets_out_total (fst c') =
    packets_out_total (fst c)
    + match snd c with Run.Line163 it _ _ _ => size it / 512 | _ => 0 end /\
  (last_rate_calc (fst c'), last_total (fst c'), src_state (fst c'), dst_state (fst c'))
  = (last_rate_calc (fst c), last_total (fst c), src_state (fst c), dst_state (fst c)) /\
  lock_depth (handler (fst c')) = lock_depth (handler (fst c)) /\
  (item_in_range (snd c) -> item_in_range (snd c')) /\
  lead (snd c') =
    lead (snd c)
    + match snd c with
      | Run.Line162 it _ _ _ => size it / 512
      | Run.Line163 it _ _ _ => - (size it / 512)
      | _ => 0
      end.
Proof.
  assert (Hsettled : forall w w', same settled w w' ->
            packets_in_total w' = packets_in_total w + 0 /\
            packets_out_total w' = packets_out_total w + 0 /\
            (last_rate_calc w', last_total w', src_state w', dst_state w')
            = (last_rate_calc w, last_total w, src_state w, dst_state w) /\
            lock_depth (handler w') = lock_depth (handler w)).
  { unfold same, settled, shared. intros w w' [= -> -> -> -> -> -> -> _].
    rewrite !Z.add_0_r. repeat split. }
  destruct 1 as [w rc w' H | w k rc bl it w' H | w k rc bl it w' H
                 | w k rc bl it w' H | w k rc bl it w' H | w rc bl w' H];
    cbn [fst snd lead held_item item_in_range].
  - apply (keeps_Ok _ _ _ _ _ batch_open_settled), Hsettled in H. tauto.
  - pose proof (simulate_item_Ok _ _ _ H) as (Hsz & _).
    apply (keeps_Ok _ _ _ _ _ simulate_item_settled), Hsettled in H. tauto.
  - unfold incr_in, bind, gets, modify in H. injection H as <-.
    unfold PyNum.floordiv. cbn. repeat split; solve [reflexivity | lia | tauto].
  - unfold incr_out, bind, gets, modify in H. injection H as <-.
    unfold PyNum.floordiv. cbn. repeat split; solve [reflexivity | lia | tauto].
  - rewrite emit_item_run in H. injection H as <-.
    unfold write_outcome. destruct (sink_error _); cbn; rewrite !Z.add_0_r; tauto.
  - apply (keeps_Ok _ _ _ _ _ (batch_close_settled rc bl)), Hsettled in H. tauto.
Qed.

(** A pull leaves the totals and the handler alone, whichever instrument. *)
Lemma pull_facts i w :
  packets_in_total (final (Run.callback i w)) = packets_in_total w /\
  packets_out_total (final (Run.callback i w)) = packets_out_total w /\
  handler (final (Run.callback i w)) = handler w.
Proof.
  pose proof (callback_unlocked i w) as H. unfold same in H.
  injection H as -> -> ->. repeat split.
Qed.

Lemma reachable_item_in_range c : Run.reachable c -> item_in_range (snd c).
Proof.
  revert c. apply reachable_ind.
  - intros e. exact I.
  - intros c c' _ IH Hs. destruct Hs as [c1 c2 Hm | i w pc].
    + apply (main_step_facts _ _ Hm). exact IH.
    + exact IH.
Qed.

Lemma step_totals c c' :
  item_in_range (snd c) -> Run.step c c' ->
  item_in_range (snd c') /\
  packets_in_total (fst c) <= packets_in_total (fst c') /\
  packets_out_total (fst c) <= packets_out_total (fst c').
Proof.
  intros Hr Hs. destruct Hs as [c1 c2 Hm | i w pc].
  - destruct (main_step_facts _ _ Hm) as (Hin & Hout & _ & _ & Hk & _).
    split; [exact (Hk Hr) |]. rewrite Hin, Hout.
    unfold item_in_range in Hr.
    destruct (snd c1) as [| ? ? ? | it ? ? ? | it ? ? ? | it ? ? ?]; cbn in Hr;
      try lia.
    + pose proof (Z.div_pos (size it) 512). lia.
    + pose proof (Z.div_pos (size it) 512). lia.
  - cbn [fst snd]. destruct (pull_facts i w) as (-> & -> & _).
    split; [exact Hr | lia].
Qed.

(** C4. Along every execution the two totals never decrease: a statement
    of the main loop adds [size // 512], which is not negative since the
    size is at least 200, and no pull changes them; so of two pulls of a
    total, the later one reads a value at least as large. *)
Theorem totals_monotone (c c' : Run.config) :
  Run.reachable c -> Run.steps c c' ->
  packets_in_total (fst c) <= packets_in_total (fst c') /\
  packets_out_total (fst c) <= packets_out_total (fst c') /\
  (forall v v',
      Run.pulled (packets_in_cb (fst c)) = Some v ->
      Run.pulled (packets_in_cb (fst c')) = Some v' -> v <= v') /\
  (forall v v',
      Run.pulled (packets_out_cb (fst c)) = Some v ->
      Run.pulled (packets_out_cb (fst c')) = Some v' -> v <= v').
Proof.
  intros Hreach Hsteps.
  assert (H : packets_in_total (fst c) <= packets_in_total (fst c') /\
              packets_out_total (fst c) <= packets_out_total (fst c')).
  { apply reachable_item_in_range in Hreach. unfold Run.steps in Hsteps.
    induction Hsteps as [c | c1 c2 c3 Hstep Hrest IH]; [lia |].
    destruct (step_totals _ _ Hreach Hstep) as (Hr2 & Hin & Hout).
    specialize (IH Hr2). lia. }
  destruct H as [Hin Hout]. split; [exact Hin |]. split; [exact Hout |].
  split; intros v v'; cbn; intros [= <-] [= <-]; assumption.
Qed.

(** ** The sample run *)

Lemma sample_run_162 : Run.steps (boot Sample.env5, Run.LoopHead) SampleRun.at_line_162.
Proof.
  eapply rtc_l.
  { apply Run.step_main. apply Run.step_open. vm_compute. reflexivity. }
  eapply rtc_l.
  { apply Run.step_main.
    apply (Run.step_simulate _ 2 3 0 SampleRun.the_item SampleRun.w_sim).
    vm_compute. reflexivity. }
  apply rtc_refl.
Qed.

Lemma sample_step_163 : Run.step SampleRun.at_line_162 SampleRun.at_line_163.
Proof. apply Run.step_main. apply Run.step_incr_in. reflexivity. Qed.

Lemma sample_reachable_162 : Run.reachable SampleRun.at_line_162.
Proof. exists Sample.env5. exact sample_run_162. Qed.

Lemma sample_reachable_163 : Run.reachable SampleRun.at_line_163.
Proof. exact (reachable_step _ _ sample_reachable_162 sample_step_163). Qed.

Lemma totals_monotone_witness :
  packets_in_total (boot Sample.env5) <= packets_in_total SampleRun.w_in /\
  packets_out_total (boot Sample.env5) <= packets_out_total SampleRun.w_in /\
  (forall v v',
      Run.pulled (packets_in_cb (boot Sample.env5)) = Some v ->
      Run.pulled (packets_in_cb SampleRun.w_in) = Some v' -> v <= v') /\
  (forall v v',
      Run.pulled (packets_out_cb (boot Sample.env5)) = Some v ->
      Run.pulled (packets_out_cb SampleRun.w_in) = Some v' -> v <= v').
Proof.
  apply (totals_monotone (boot Sample.env5, Run.LoopHead) SampleRun.at_line_163).
  - exists Sample.env5. apply rtc_refl.
  - eapply rtc_r; [exact sample_run_162 | exact sample_step_163].
Defined.

(** ** Balance of the two totals *)

(** Between line 162 and line 163 of the first item of the sample run,
    [packets_in_total] is 2 and [packets_out_total] is still 0. *)
Lemma totals_differ_at_line_163 :
  exists c, Run.reachable c /\ packets_in_total (fst c) <> packets_out_total (fst c).
Proof.
  exists SampleRun.at_line_163. split; [exact sample_reachable_163 |].
  vm_compute. discriminate.
Qed.

(** C9, amended. At every point of every execution [packets_in_total] is
    [packets_out_total] plus the lead of the main thread: the two are equal
    everywhere but between line 162 and line 163, where [packets_in_total]
    is ahead by the [size // 512] of the item in hand. *)
Theorem totals_balanced (c : Run.config) :
  Run.reachable c ->
  packets_in_total (fst c) = packets_out_total (fst c) + lead (snd c).
Proof.
  revert c. apply reachable_ind.
  - intros e. reflexivity.
  - intros c c' _ IH Hs. destruct Hs as [c1 c2 Hm | i w pc].
    + destruct (main_step_facts _ _ Hm) as (Hin & Hout & _ & _ & _ & Hlead).
      rewrite Hin, Hout, Hlead, IH.
      destruct (snd c1); lia.
    + cbn [fst snd] in *. destruct (pull_facts i w) as (-> & -> & _). exact IH.
Qed.

Lemma totals_balanced_witness :
  packets_in_total SampleRun.w_in =
  packets_out_total SampleRun.w_in + lead (snd SampleRun.at_line_163).
Proof. exact (totals_balanced SampleRun.at_line_163 sample_reachable_163). Defined.

Example totals_at_line_163 :
  packets_in_total SampleRun.w_in = 2 /\ packets_out_total SampleRun.w_in = 0 /\
  size SampleRun.the_item = 1399.
Proof. vm_compute. repeat split. Qed.

(** ** A log file that cannot be written *)

(** With a full disk, [log_json] returns normally: the failure is reported
    on [sys.stderr] only. *)
Lemma write_failure_swallowed :
  exists w',
    sink_error (environ (boot Sample.env_full)) = Some Sample.disk_full /\
    Json.accepts (log_record "2024-01-01T00:00:05" Sample.an_item None) = true /\
    log_json (log_record "2024-01-01T00:00:05" Sample.an_item None)
             (boot Sample.env_full) = Ok tt w' /\
    stderr_lines (handler w') = ["--- Logging error ---"].
Proof.
  eexists. split; [reflexivity |]. split; [vm_compute; reflexivity |].
  rewrite log_json_run. repeat split.
Qed.

(** C5, amended. When the log file cannot be written, the failed write of a
    record that [json.dumps] serialises is caught inside the logging handler
    and reported on [sys.stderr]; it does not reach the caller of
    [log_json], which returns normally, with the handler's lock released
    and the shared state untouched. *)
Theorem log_json_write_failure (record : list (string * json)) (w : world)
        (f : sink_failure) :
  Json.accepts record = true ->
  sink_error (environ w) = Some f ->
  exists w',
    log_json record w = Ok tt w' /\
    stderr_lines (handler w') =
      (stderr_lines (handler w) ++ ["--- Logging error ---"])%list /\
    lock_depth (handler w') = lock_depth (handler w) /\
    shared w' = shared w.
Proof.
  intros _ Hsink. eexists. split; [apply log_json_run |].
  unfold write_outcome. rewrite Hsink. repeat split.
Qed.

Lemma log_json_write_failure_witness :
  exists w',
    log_json (log_record "2024-01-01T00:00:05" Sample.an_item None)
             (boot Sample.env_full) = Ok tt w' /\
    stderr_lines (handler w') =
      (stderr_lines (handler (boot Sample.env_full)) ++ ["--- Logging error ---"])%list /\
    lock_depth (handler w') = lock_depth (handler (boot Sample.env_full)) /\
    shared w' = shared (boot Sample.env_full).
Proof.
  apply (log_json_write_failure _ (boot Sample.env_full) Sample.disk_full).
  - vm_compute. reflexivity.
  - reflexivity.
Defined.

(** ** Correlation of log records *)

(** C6. A record emitted with no span open carries a null [trace_id], and
    the emission returns; a record emitted while a span of a trace is
    current carries the 32-digit rendering of that trace's identity; and a
    span opened by the tracer always has a non-zero trace identity. *)
Theorem emit_item_correlation (it : item) (w : world) :
  (actives w = [] ->
   exists w',
     emit_item it w = Ok tt w' /\
     assoc "trace_id" (record_of it w) = Some JNull /\
     (sink_error (environ w) = None ->
      log_lines (handler w') = (log_lines (handler w) ++ [line_of (record_of it w)])%list)) /\
  (forall root rest,
      actives w = root :: rest -> trace_id root <> 0%N ->
      exists w',
        emit_item it w = Ok tt w' /\
        assoc "trace_id" (record_of it w)
          = Some (JStr (PyStr.format_032x (trace_id root))) /\
        (sink_error (environ w) = None ->
         log_lines (handler w') = (log_lines (handler w) ++ [line_of (record_of it w)])%list)) /\
  (forall name u w1,
      Trace.enter name w = Ok u w1 ->
      exists root, actives w1 = root :: actives w /\ trace_id root <> 0%N).
Proof.
  assert (Hlog : sink_error (environ w) = None ->
            log_lines (handler (write_outcome (line_of (record_of it w)) (PyTime.tick w)))
            = (log_lines (handler w) ++ [line_of (record_of it w)])%list).
  { intros Hs. unfold write_outcome. cbn. now rewrite Hs. }
  split; [| split].
  - intros Hact. eexists. split; [apply emit_item_run |]. split; [| exact Hlog].
    unfold record_of, tid_of. unfold actives in Hact. rewrite Hact. reflexivity.
  - intros root rest Hact Hne. eexists. split; [apply emit_item_run |].
    split; [| exact Hlog].
    unfold record_of. rewrite (tid_of_root _ _ _ Hact Hne). reflexivity.
  - intros name u w1 H. apply enter_Ok in H as (root & Hroot & Hne & _). eauto.
Qed.

Lemma emit_item_correlation_witness :
  (exists w',
      emit_item Sample.an_item (boot Sample.env5) = Ok tt w' /\
      assoc "trace_id" (record_of Sample.an_item (boot Sample.env5)) = Some JNull /\
      (sink_error (environ (boot Sample.env5)) = None ->
       log_lines (handler w') =
         (log_lines (handler (boot Sample.env5))
          ++ [line_of (record_of Sample.an_item (boot Sample.env5))])%list)) /\
  (exists w',
      emit_item Sample.an_item SampleRun.w_open = Ok tt w' /\
      assoc "trace_id" (record_of Sample.an_item SampleRun.w_open)
        = Some (JStr "000000000000000000000000000003e9") /\
      (sink_error (environ SampleRun.w_open) = None ->
       log_lines (handler w') =
         (log_lines (handler SampleRun.w_open)
          ++ [line_of (record_of Sample.an_item SampleRun.w_open)])%list)).
Proof.
  split.
  - apply (proj1 (emit_item_correlation Sample.an_item (boot Sample.env5))).
    reflexivity.
  - apply (proj1 (proj2 (emit_item_correlation Sample.an_item SampleRun.w_open))
             (mkSpan "process_batch" 1001 2001 [("hostname", AStr "host1")]) []).
    + vm_compute. reflexivity.
    + discriminate.
Defined.

(** ** Severity and status *)

(** C10. Whenever an item is processed, the record given to [log_json] is
    the record of lines 169-180 for the item just simulated: its status
    field is the status drawn, ["ok"] or ["error"], and its level is
    ["INFO"] exactly when the status is ["ok"] and ["ERROR"] exactly when
    the status is ["error"]. *)
Theorem severity_follows_status (bl : Z) (w : world) (bl' : Z) (w' : world) :
  process_item bl w = Ok bl' w' ->
  exists it w1 w2 w3,
    simulate_item w = Ok it w1 /\
    incr_in it w1 = Ok tt w2 /\ incr_out it w2 = Ok tt w3 /\
    emit_item it w3 = log_json (record_of it w3) (PyTime.tick w3) /\
    log_json (record_of it w3) (PyTime.tick w3) = Ok tt w' /\
    (status it = "ok" \/ status it = "error") /\
    assoc "status" (record_of it w3) = Some (JStr (status it)) /\
    (assoc "level" (record_of it w3) = Some (JStr "INFO") <->
     assoc "status" (record_of it w3) = Some (JStr "ok")) /\
    (assoc "level" (record_of it w3) = Some (JStr "ERROR") <->
     assoc "status" (record_of it w3) = Some (JStr "error")).
Proof.
  intros H. unfold process_item in H.
  apply bind_Ok_inv in H as (it & w1 & Hsim & H).
  apply bind_Ok_inv in H as ([] & w2 & Hin & H).
  apply bind_Ok_inv in H as ([] & w3 & Hout & H).
  apply bind_Ok_inv in H as ([] & w4 & Hemit & H).
  injection H as _ <-.
  pose proof (simulate_item_Ok _ _ _ Hsim) as (_ & Hst & _ & _).
  assert (Hcall : emit_item it w3 = log_json (record_of it w3) (PyTime.tick w3))
    by (rewrite emit_item_run; symmetry; apply log_json_run).
  exists it, w1, w2, w3.
  split; [exact Hsim |]. split; [exact Hin |]. split; [exact Hout |].
  split; [exact Hcall |]. split; [now rewrite <- Hcall |]. split; [exact Hst |].
  unfold record_of, log_record. cbn [assoc String.eqb Ascii.eqb Bool.eqb].
  split; [reflexivity |].
  destruct Hst as [-> | ->]; cbn; split; split; intros [=]; reflexivity.
Qed.

Lemma process_item_sample : process_item 0 SampleRun.w_open = Ok 0 SampleRun.w_item.
Proof. vm_compute. reflexivity. Qed.

Lemma severity_follows_status_witness :
  exists it w1 w2 w3,
    simulate_item SampleRun.w_open = Ok it w1 /\
    incr_in it w1 = Ok tt w2 /\ incr_out it w2 = Ok tt w3 /\
    emit_item it w3 = log_json (record_of it w3) (PyTime.tick w3) /\
    log_json (record_of it w3) (PyTime.tick w3) = Ok tt SampleRun.w_item /\
    (status it = "ok" \/ status it = "error") /\
    assoc "status" (record_of it w3) = Some (JStr (status it)) /\
    (assoc "level" (record_of it w3) = Some (JStr "INFO") <->
     assoc "status" (record_of it w3) = Some (JStr "ok")) /\
    (assoc "level" (record_of it w3) = Some (JStr "ERROR") <->
     assoc "status" (record_of it w3) = Some (JStr "error")).
Proof.
  apply (severity_follows_status 0 SampleRun.w_open 0 SampleRun.w_item).
  exact process_item_sample.
Defined.

(** ** The last-seen stamp *)

Lemma last_cells_lookup t k : last_cells t !! k = cell t k "last".
Proof. unfold last_cells, cell. rewrite lookup_omap. now destruct (t !! k). Qed.


Lemma setitem_dst_last k f v :
  f <> "last" -> keeps (same dst_last) (setitem DST k f v).
Proof.
  intros Hf w. unfold setitem. cbn [load DST].
  destruct (dst_state w !! k) as [d |] eqn:Hd; cbn [final]; [| reflexivity].
  unfold same, dst_last. cbn [store DST set_dst_state dst_state].
  apply map_eq. intros i. rewrite !last_cells_lookup.
  destruct (decide (k = i)) as [<- | Hne].
  - unfold cell. rewrite lookup_insert_eq, Hd. now rewrite lookup_insert_ne.
  - now rewrite cell_insert_ne.
Qed.

Lemma callback_dst_last i : keeps (same dst_last) (Run.callback i).
Proof.
  destruct i; try (keeps_tac; fail).
  unfold Run.callback, dst_gauge_cb, dst_gauge_body, iadd.
  repeat keeps_step;
    try (apply setitem_dst_last; discriminate); keeps_tac.
Qed.

Lemma callback_src_state i :
  i <> Run.src_stats_gauge -> keeps (same src_state) (Run.callback i).
Proof. intros Hi. destruct i; try contradiction; keeps_tac. Qed.

Lemma boot_no_last e : dst_last (boot e) = ∅.
Proof.
  apply map_eq. intros k. unfold dst_last. rewrite last_cells_lookup.
  rewrite lookup_empty. cbn [fst boot PyTime.tick set_environ dst_state].
  unfold cell, dst_state0. cbn [destinations map seq list_to_map foldr fst snd].
  rewrite !lookup_insert, lookup_empty.
  repeat case_decide; solve [reflexivity | vm_compute; reflexivity].
Qed.

Lemma reachable_no_last c : Run.reachable c -> dst_last (fst c) = ∅.
Proof.
  revert c. apply reachable_ind.
  - intros e. apply boot_no_last.
  - intros c c' _ IH Hs. destruct Hs as [c1 c2 Hm | i w pc].
    + destruct (main_step_facts _ _ Hm) as (_ & _ & Hst & _).
      injection Hst as _ _ _ Hdst. unfold dst_last in *. now rewrite Hdst.
    + cbn [fst] in *. rewrite <- IH. symmetry. apply callback_dst_last.
Qed.


Lemma bumped_tracked lo hi t t' k : bumped lo hi t t' k -> tracked t' k.
Proof. intros (a & r & _ & _ & Hp & Hb). split; eauto. Qed.


Lemma all_tracked_same w w' : tables w = tables w' -> all_tracked w -> all_tracked w'.
Proof. unfold tables, all_tracked. now intros [= <- <-]. Qed.

Lemma src_gauge_cb_dst_state : keeps (same dst_state) src_gauge_cb.
Proof. keeps_tac. Qed.

Lemma dst_gauge_cb_src_state : keeps (same src_state) dst_gauge_cb.
Proof. keeps_tac. Qed.

Lemma callback_tracked i w : all_tracked w -> all_tracked (final (Run.callback i w)).
Proof.
  intros Hall. pose proof Hall as [Hs Hd].
  destruct i; cbn [Run.callback].
  - apply (all_tracked_same w); [| exact Hall].
    apply (ltac:(keeps_tac) : keeps (same tables) packets_in_cb).
  - apply (all_tracked_same w); [| exact Hall].
    apply (ltac:(keeps_tac) : keeps (same tables) packets_out_cb).
  - apply (all_tracked_same w); [| exact Hall].
    apply (ltac:(keeps_tac) : keeps (same tables) packet_rate_cb).
  - destruct (PyNum.int_of_float (now_of w)) as [now |] eqn:E.
    + destruct (src_gauge_cb_run w now Hs E) as (w' & Hrun & _ & Hent).
      pose proof (src_gauge_cb_dst_state w) as Hdst. rewrite Hrun in *.
      cbn [final] in *. split.
      * intros s Hin. eapply bumped_tracked. apply (Hent s Hin).
      * unfold same in Hdst. now rewrite <- Hdst.
    + unfold src_gauge_cb, bind, PyTime.time, py_int. unfold now_of in E.
      rewrite E. exact Hall.
  - destruct (dst_gauge_cb_run w Hd) as (w' & Hrun & _ & Hent).
    pose proof (dst_gauge_cb_src_state w) as Hsrc. rewrite Hrun in *.
    cbn [final] in *. split.
    + unfold same in Hsrc. now rewrite <- Hsrc.
    + intros d Hin. eapply bumped_tracked. apply (Hent d Hin).
Qed.

Lemma reachable_tracked c : Run.reachable c -> all_tracked (fst c).
Proof.
  revert c. apply reachable_ind.
  - intros e. apply boot_tracked.
  - intros c c' _ IH Hs. destruct Hs as [c1 c2 Hm | i w pc].
    + destruct (main_step_facts _ _ Hm) as (_ & _ & Hst & _).
      injection Hst as _ _ Hsrc Hdst.
      apply (all_tracked_same (fst c1)); [| exact IH].
      unfold tables. now rewrite Hsrc, Hdst.
    + now apply callback_tracked.
Qed.

(** C7. A pull of [src_stats] that bumps the counters of a source also sets
    its ["last"] cell to the integer part of the current time; no
    destination ever has a ["last"] cell; and no statement of the main
    loop and no pull of another instrument changes the source table. *)
Theorem last_seen_only_for_sources :
  (forall c now,
      Run.reachable c -> PyNum.int_of_float (now_of (fst c)) = Some now ->
      exists out w',
        src_gauge_cb (fst c) = Ok out w' /\
        forall s, s ∈ sources ->
          bumped 50 200 (src_state (fst c)) (src_state w') s /\
          cell (src_state w') s "last" = Some now) /\
  (forall c d, Run.reachable c -> cell (dst_state (fst c)) d "last" = None) /\
  (forall c c', Run.main_step c c' -> src_state (fst c') = src_state (fst c)) /\
  (forall i w, i <> Run.src_stats_gauge ->
               src_state (final (Run.callback i w)) = src_state w).
Proof.
  split; [| split; [| split]].
  - intros c now Hreach Hnow.
    destruct (reachable_tracked c Hreach) as [Hs _].
    destruct (src_gauge_cb_run (fst c) now Hs Hnow) as (w' & Hrun & _ & Hent).
    eauto.
  - intros c d Hreach. rewrite <- last_cells_lookup.
    change (last_cells (dst_state (fst c))) with (dst_last (fst c)).
    rewrite (reachable_no_last c Hreach). apply lookup_empty.
  - intros c c' Hm. destruct (main_step_facts _ _ Hm) as (_ & _ & Hst & _).
    now injection Hst.
  - intros i w Hi. symmetry. apply (callback_src_state i Hi).
Qed.

Lemma last_seen_only_for_sources_witness :
  exists out w',
    src_gauge_cb (boot Sample.env5) = Ok out w' /\
    forall s, s ∈ sources ->
      bumped 50 200 (src_state (boot Sample.env5)) (src_state w') s /\
      cell (src_state w') s "last" = Some 5.
Proof.
  apply (proj1 last_seen_only_for_sources (boot Sample.env5, Run.LoopHead) 5).
  - exists Sample.env5. apply rtc_refl.
  - vm_compute. reflexivity.
Defined.

(** ** Locks *)

(** In the sample run, line 162 changes the shared state while the only
    lock of the program is free before and after, and a pull right after it
    reads 2 inbound packets against 0 outbound. *)
Lemma mutation_without_lock :
  exists c c',
    Run.reachable c /\ Run.step c c' /\
    shared (fst c') <> shared (fst c) /\
    lock_depth (handler (fst c)) = 0%nat /\
    lock_depth (handler (fst c')) = 0%nat /\
    Run.pulled (packets_in_cb (fst c')) = Some 2 /\
    Run.pulled (packets_out_cb (fst c')) = Some 0.
Proof.
  assert (E1 : packets_in_total SampleRun.w_in = 2) by (vm_compute; reflexivity).
  assert (E0 : packets_in_total SampleRun.w_sim = 0) by (vm_compute; reflexivity).
  assert (E2 : packets_out_total SampleRun.w_in = 0) by (vm_compute; reflexivity).
  assert (L0 : lock_depth (handler SampleRun.w_sim) = 0%nat) by (vm_compute; reflexivity).
  assert (L1 : lock_depth (handler SampleRun.w_in) = 0%nat) by (vm_compute; reflexivity).
  exists SampleRun.at_line_162, SampleRun.at_line_163.
  split; [exact sample_reachable_162 |]. split; [exact sample_step_163 |].
  cbn [fst SampleRun.at_line_162 SampleRun.at_line_163].
  split; [| split; [exact L0 | split; [exact L1 |]]].
  - intros H.
    pose proof (f_equal (fun x => fst (fst (fst (fst x)))) H) as Hin.
    cbn [fst shared] in Hin. rewrite E1, E0 in Hin. discriminate.
  - unfold packets_in_cb, packets_out_cb, bind, gets, ret, Run.pulled. cbn [value].
    rewrite E1, E2. split; reflexivity.
Qed.

(** C8, amended. No lock guards the shared state: the lock of the log
    handler, the only lock of the program, is free at every step boundary of
    every execution, and the code that runs under it ([log_json], called by
    [emit_item]) touches neither the totals, nor the rate state, nor the two
    tables. *)
Theorem shared_state_unguarded :
  (forall c, Run.reachable c -> lock_depth (handler (fst c)) = 0%nat) /\
  (forall record w, shared (final (log_json record w)) = shared w) /\
  (forall it w, shared (final (emit_item it w)) = shared w).
Proof.
  split; [| split].
  - apply reachable_ind.
    + intros e. reflexivity.
    + intros c c' _ IH Hs. destruct Hs as [c1 c2 Hm | i w pc].
      * destruct (main_step_facts _ _ Hm) as (_ & _ & _ & Hlock & _). congruence.
      * cbn [fst] in *. destruct (pull_facts i w) as (_ & _ & ->). exact IH.
  - intros record w. rewrite log_json_run. unfold write_outcome.
    destruct (sink_error (environ w)); reflexivity.
  - intros it w. rewrite emit_item_run. unfold write_outcome.
    cbn [final]. destruct (sink_error _); reflexivity.
Qed.

(** ** The main loop as a sequence of steps *)

Lemma process_item_steps rc k bl w bl' w' :
  process_item bl w = Ok bl' w' ->
  rtc Run.main_step (w, Run.ItemHead (S k) rc bl) (w', Run.ItemHead k rc bl').
Proof.
  intros H. unfold process_item in H.
  apply bind_Ok_inv in H as (it & w1 & Hsim & H).
  apply bind_Ok_inv in H as ([] & w2 & Hin & H).
  apply bind_Ok_inv in H as ([] & w3 & Hout & H).
  apply bind_Ok_inv in H as ([] & w4 & Hemit & H).
  injection H as <- <-.
  eapply rtc_l; [apply Run.step_simulate; exact Hsim |].
  eapply rtc_l; [apply Run.step_incr_in; exact Hin |].
  eapply rtc_l; [apply Run.step_incr_out; exact Hout |].
  apply rtc_once. apply Run.step_emit. exact Hemit.
Qed.

Lemma for_range_steps rc k bl w bl' w' :
  for_range k process_item bl w = Ok bl' w' ->
  rtc Run.main_step (w, Run.ItemHead k rc bl) (w', Run.ItemHead 0 rc bl').
Proof.
  revert bl w. induction k as [| k IH]; intros bl w H; cbn [for_range] in H.
  - injection H as <- <-. apply rtc_refl.
  - apply bind_Ok_inv in H as (bl1 & w1 & Hitem & H).
    etransitivity; [apply process_item_steps; exact Hitem | apply IH; exact H].
Qed.

(** A completed iteration of the main loop is a run of the main thread from
    the head of the loop back to it. *)
Lemma main_iteration_steps w w' :
  main_iteration w = Ok tt w' ->
  rtc Run.main_step (w, Run.LoopHead) (w', Run.LoopHead).
Proof.
  intros H. unfold main_iteration in H.
  apply bind_Ok_inv in H as (rc & w0 & Hrc & H).
  apply bind_Ok_inv in H as ([] & w9 & Hspan & Hsleep).
  unfold Trace.start_as_current_span in Hspan.
  apply bind_Ok_inv in Hspan as ([] & w1 & Henter & Hfin).
  apply finally_Ok_inv in Hfin as (w8 & Hbody & Hexit).
  unfold batch_body in Hbody.
  apply bind_Ok_inv in Hbody as ([] & w2 & Hattr & Hbody).
  apply bind_Ok_inv in Hbody as (bl & w6 & Hloop & Hbody).
  apply bind_Ok_inv in Hbody as ([] & w7 & Hattr2 & Hattr3).
  eapply rtc_l.
  { apply (Run.step_open w rc w2). unfold Run.batch_open.
    rewrite (bind_Ok_run _ _ _ _ _ Hrc), (bind_Ok_run _ _ _ _ _ Henter),
      (bind_Ok_run _ _ _ _ _ Hattr). reflexivity. }
  etransitivity; [apply for_range_steps; exact Hloop |].
  apply rtc_once. apply Run.step_close. unfold Run.batch_close.
  rewrite (bind_Ok_run _ _ _ _ _ Hattr2), (bind_Ok_run _ _ _ _ _ Hattr3),
    (bind_Ok_run _ _ _ _ _ Hexit). exact Hsleep.
Qed.


(** * Further properties of the program *)

(** ** The serialised record *)


Lemma all_printable_app s t :
  all_printable (s ++ t) = all_printable s && all_printable t.
Proof.
  induction s as [| c s IH]; [reflexivity |].
  change (String c s ++ t) with (String c (s ++ t)).
  cbn [all_printable]. now rewrite IH, andb_assoc.
Qed.

Lemma json_escape_char_printable c : all_printable (PyStr.json_escape_char c) = true.
Proof. destruct c as [[] [] [] [] [] [] [] []]; reflexivity. Qed.

Lemma json_escape_printable s : all_printable (PyStr.json_escape s) = true.
Proof.
  induction s as [| c s IH]; cbn [PyStr.json_escape]; [reflexivity |].
  now rewrite all_printable_app, json_escape_char_printable, IH.
Qed.

Lemma json_string_printable s : all_printable (PyStr.json_string s) = true.
Proof.
  unfold PyStr.json_string.
  change (String PyStr.dquote (PyStr.json_escape s))
    with (String PyStr.dquote EmptyString ++ PyStr.json_escape s).
  now rewrite !all_printable_app, json_escape_printable.
Qed.

Lemma decimal_printable d : all_printable (DecimalString.NilEmpty.string_of_uint d) = true.
Proof. induction d; cbn; auto. Qed.

Lemma of_int_printable z : all_printable (PyStr.of_int z) = true.
Proof.
  unfold PyStr.of_int, DecimalString.NilZero.string_of_int,
    DecimalString.NilZero.string_of_uint.
  destruct (Z.to_int z) as [d | d]; destruct d; cbn [all_printable];
    rewrite ?decimal_printable; reflexivity.
Qed.

Lemma json_value_printable v : all_printable (Json.value v) = true.
Proof.
  destruct v; cbn [Json.value];
    [apply json_string_printable | apply of_int_printable | reflexivity].
Qed.

Lemma json_members_printable l : all_printable (Json.members l) = true.
Proof.
  assert (Hm : forall kv, all_printable (Json.member kv) = true).
  { intros kv. unfold Json.member.
    now rewrite !all_printable_app, json_string_printable, json_value_printable. }
  induction l as [| kv l IH]; [reflexivity |].
  destruct l as [| kv' l]; [apply Hm |].
  change (Json.members (kv :: kv' :: l))
    with (Json.member kv ++ "," ++ Json.members (kv' :: l)).
  now rewrite !all_printable_app, Hm, IH.
Qed.

(** X1. Whatever the record, [json.dumps] yields printable ASCII only: the
    serialised record has no line break in it, so every record is one line
    of the log file. *)
Theorem dumps_single_line (record : list (string * json)) :
  all_printable (Json.dumps record) = true /\
  (forall c, In c (list_ascii_of_string (Json.dumps record)) ->
             c <> ascii_of_nat 10 /\ c <> ascii_of_nat 13).
Proof.
  assert (H : all_printable (Json.dumps record) = true).
  { unfold Json.dumps. now rewrite !all_printable_app, json_members_printable. }
  split; [exact H |].
  generalize dependent (Json.dumps record). intros s H c Hin.
  induction s as [| a s IH]; [contradiction |].
  cbn in H. apply andb_true_iff in H as [Ha Hs].
  destruct Hin as [-> | Hin]; [| exact (IH Hs Hin)].
  split; intros ->; discriminate.
Qed.

(** ** The rendering of trace identities *)


Lemma zeros_length k : String.length (PyStr.zeros k) = k.
Proof. induction k; cbn; congruence. Qed.

Lemma string_length_app s t :
  String.length (s ++ t) = (String.length s + String.length t)%nat.
Proof.
  induction s as [| c s IH]; [reflexivity |].
  change (String c s ++ t) with (String c (s ++ t)). cbn. now rewrite IH.
Qed.

Lemma zeros_prefix_parse k s d :
  HexadecimalString.NilEmpty.uint_of_string s = Some d ->
  exists d', HexadecimalString.NilEmpty.uint_of_string (PyStr.zeros k ++ s) = Some d' /\
             N.of_hex_uint d' = N.of_hex_uint d.
Proof.
  intros Hs. induction k as [| k (d' & Hd' & Heq)]; [exists d; auto |].
  exists (Hexadecimal.D0 d'). split; [| exact Heq].
  change (PyStr.zeros (S k) ++ s) with (String "0" (PyStr.zeros k ++ s)).
  cbn [HexadecimalString.NilEmpty.uint_of_string]. now rewrite Hd'.
Qed.

Lemma nonempty_parse s d :
  HexadecimalString.NilZero.uint_of_string s = Some d ->
  HexadecimalString.NilEmpty.uint_of_string s = Some d /\ s <> EmptyString.
Proof. destruct s; [discriminate | intros H; split; [exact H | discriminate]]. Qed.

Lemma parse_format n : parse_hex (PyStr.format_032x n) = Some n.
Proof.
  unfold parse_hex, PyStr.format_032x, PyStr.hex.
  assert (Hd : N.to_hex_uint n <> Hexadecimal.Nil).
  { destruct n as [| p]; [discriminate |]. apply HexadecimalPos.Unsigned.to_uint_nonnil. }
  apply HexadecimalString.NilZero.usu, nonempty_parse in Hd as [Hu Hne].
  generalize dependent (HexadecimalString.NilZero.string_of_uint (N.to_hex_uint n)).
  intros h Hu Hne.
  destruct (zeros_prefix_parse (32 - String.length h) _ _ Hu) as (d' & Hd' & Heq).
  assert (Hnz : HexadecimalString.NilZero.uint_of_string
                  (PyStr.zeros (32 - String.length h) ++ h) = Some d').
  { rewrite <- Hd'. destruct (PyStr.zeros _); [| reflexivity].
    destruct h; [contradiction | reflexivity]. }
  rewrite Hnz. cbn [option_map]. rewrite Heq.
  now rewrite HexadecimalN.Unsigned.of_to.
Qed.

(** X2. The 32-digit rendering of a trace identity is at least 32
    characters long and reads back, as a hexadecimal number, to the
    identity it was made from: two traces never share a rendering. *)
Theorem format_032x_decodes (n : N) :
  parse_hex (PyStr.format_032x n) = Some n /\
  (32 <= String.length (PyStr.format_032x n))%nat /\
  (forall m, PyStr.format_032x m = PyStr.format_032x n -> m = n).
Proof.
  split; [apply parse_format |]. split.
  - unfold PyStr.format_032x. rewrite string_length_app, zeros_length. lia.
  - intros m H. pose proof (parse_format m) as Hm. rewrite H, parse_format in Hm.
    now injection Hm.
Qed.


(** ** The log emitter, whatever the sink *)



(** ** What each callback touches *)

(** X4. What each callback can change, whether it returns or raises: the
    two total callbacks change nothing and report the total as it is;
    [packet_rate_cb] changes only the rate state, [src_gauge_cb] only the
    source table, [dst_gauge_cb] only the destination table, besides the
    positions of the clock and of the random source. *)
Theorem callback_footprints (w : world) :
  packets_in_cb w = Ok [mkObservation (Int (packets_in_total w)) host_labels] w /\
  packets_out_cb w = Ok [mkObservation (Int (packets_out_total w)) host_labels] w /\
  (let w' := final (packet_rate_cb w) in
   (packets_in_total w', packets_out_total w', tables w', tracer w', handler w',
    surroundings w')
   = (packets_in_total w, packets_out_total w, tables w, tracer w, handler w,
      surroundings w)) /\
  (let w' := final (src_gauge_cb w) in
   (packets_in_total w', packets_out_total w', rate_state w', dst_state w',
    tracer w', handler w', surroundings w')
   = (packets_in_total w, packets_out_total w, rate_state w, dst_state w,
      tracer w, handler w, surroundings w)) /\
  (let w' := final (dst_gauge_cb w) in
   (packets_in_total w', packets_out_total w', rate_state w', src_state w',
    tracer w', handler w', surroundings w')
   = (packets_in_total w, packets_out_total w, rate_state w, src_state w,
      tracer w, handler w, surroundings w)).
Proof.
  split; [reflexivity |]. split; [reflexivity |].
  split; [| split]; cbv zeta; symmetry.
  - apply (ltac:(keeps_tac) :
      keeps (same (fun w => (packets_in_total w, packets_out_total w, tables w,
                             tracer w, handler w, surroundings w))) packet_rate_cb).
  - apply (ltac:(keeps_tac) :
      keeps (same (fun w => (packets_in_total w, packets_out_total w, rate_state w,
                             dst_state w, tracer w, handler w, surroundings w)))
            src_gauge_cb).
  - apply (ltac:(keeps_tac) :
      keeps (same (fun w => (packets_in_total w, packets_out_total w, rate_state w,
                             src_state w, tracer w, handler w, surroundings w)))
            dst_gauge_cb).
Qed.

(** X5. Whether it returns or raises, one iteration of the main loop leaves
    the two tables, the rate state and the answers of the environment as
    they were. *)
Theorem main_loop_footprint (w : world) :
  let w' := final (main_iteration w) in
  (tables w', rate_state w', surroundings w')
  = (tables w, rate_state w, surroundings w).
Proof.
  cbv zeta. symmetry.
  apply (ltac:(keeps_tac) :
    keeps (same (fun w => (tables w, rate_state w, surroundings w))) main_iteration).
Qed.


(** ** The tables along an execution *)

Lemma plausible_tracked t k : plausible t k -> tracked t k.
Proof. intros (p & b & Hp & Hb & _). split; eauto. Qed.

Lemma all_plausible_tracked w : all_plausible w -> all_tracked w.
Proof. intros [Hs Hd]. split; intros k Hk; apply plausible_tracked; auto. Qed.

Lemma bumped_plausible lo hi t t' k :
  0 <= lo -> bumped lo hi t t' k -> plausible t k -> plausible t' k.
Proof.
  intros Hlo (a & r & Ha & Hr & Hp' & Hb') (p & b & Hp & Hb & Hp0 & Hpb).
  unfold reading in *. rewrite Hp in Hp'. rewrite Hb in Hb'. cbn in Hp', Hb'.
  exists (p + a), (b + a * r). repeat split; try assumption; nia.
Qed.

Lemma bumped_grows lo hi t t' k :
  0 <= lo -> bumped lo hi t t' k ->
  reading t k "packets" + lo <= reading t' k "packets" /\
  reading t k "bytes" + 64 * lo <= reading t' k "bytes".
Proof.
  intros Hlo (a & r & Ha & Hr & Hp' & Hb').
  unfold reading at 2 4. rewrite Hp', Hb'. cbn. nia.
Qed.

(** What a pull does to the two tables when every entity is tracked: each
    table is as before, or all its configured entities were bumped. *)
Lemma pull_tables i w :
  all_tracked w ->
  (src_state (final (Run.callback i w)) = src_state w \/
   forall s, s ∈ sources ->
     bumped 50 200 (src_state w) (src_state (final (Run.callback i w))) s) /\
  (dst_state (final (Run.callback i w)) = dst_state w \/
   forall d, d ∈ destinations ->
     bumped 40 160 (dst_state w) (dst_state (final (Run.callback i w))) d).
Proof.
  intros [Hs Hd].
  assert (Hsame : forall m : M (list Observation),
            keeps (same tables) m ->
            src_state (final (m w)) = src_state w /\
            dst_state (final (m w)) = dst_state w).
  { intros m Hm. specialize (Hm w). unfold same, tables in Hm.
    injection Hm as -> ->. split; reflexivity. }
  destruct i; cbn [Run.callback].
  - destruct (Hsame packets_in_cb ltac:(keeps_tac)); auto.
  - destruct (Hsame packets_out_cb ltac:(keeps_tac)); auto.
  - destruct (Hsame packet_rate_cb ltac:(keeps_tac)); auto.
  - split.
    + destruct (PyNum.int_of_float (now_of w)) as [now |] eqn:E.
      * destruct (src_gauge_cb_run w now Hs E) as (w' & Hrun & _ & Hent).
        rewrite Hrun. right. intros s Hin. apply (Hent s Hin).
      * left. unfold src_gauge_cb, bind, PyTime.time, py_int. unfold now_of in E.
        rewrite E. reflexivity.
    + left. symmetry. apply src_gauge_cb_dst_state.
  - split.
    + left. symmetry. apply dst_gauge_cb_src_state.
    + destruct (dst_gauge_cb_run w Hd) as (w' & Hrun & _ & Hent).
      rewrite Hrun. right. exact Hent.
Qed.

Lemma boot_plausible e : all_plausible (boot e).
Proof.
  split; intros k Hk;
    repeat (apply elem_of_cons in Hk as [-> | Hk]);
    solve [inversion Hk
          | exists 0, 0; split; [vm_compute; reflexivity |];
            split; [vm_compute; reflexivity | lia]].
Qed.

Lemma step_plausible c c' : all_plausible (fst c) -> Run.step c c' -> all_plausible (fst c').
Proof.
  intros Hall Hs. destruct Hs as [c1 c2 Hm | i w pc].
  - destruct (main_step_facts _ _ Hm) as (_ & _ & Hst & _).
    injection Hst as _ _ Hsrc Hdst. unfold all_plausible. now rewrite Hsrc, Hdst.
  - cbn [fst] in *. pose proof Hall as [Hp Hq].
    destruct (pull_tables i w (all_plausible_tracked _ Hall)) as [[Hsrc | Hsrc] [Hdst | Hdst]];
      (split; [intros s Hin | intros d Hin]);
      first [ rewrite Hsrc; auto | rewrite Hdst; auto
            | eapply bumped_plausible; [| apply Hsrc; exact Hin | auto]; lia
            | eapply bumped_plausible; [| apply Hdst; exact Hin | auto]; lia ].
Qed.

Lemma reachable_plausible c : Run.reachable c -> all_plausible (fst c).
Proof.
  revert c. apply reachable_ind.
  - intros e. apply boot_plausible.
  - intros c c' _ IH Hs. exact (step_plausible c c' IH Hs).
Qed.

(** X6. In every reachable state each configured source and destination
    has a non-negative packet count and a byte count between 64 and 1200
    times that count. *)
Theorem counters_stay_plausible (w : world) (pc : Run.main_pc) :
  Run.reachable (w, pc) -> all_plausible w.
Proof. intros H. exact (reachable_plausible (w, pc) H). Qed.

Lemma pulled_reachable : Run.reachable (w_pulled, Run.LoopHead).
Proof.
  exists Sample.env5. apply rtc_once.
  apply (Run.step_pull Run.src_stats_gauge (boot Sample.env5) Run.LoopHead).
Qed.

Lemma counters_stay_plausible_witness : all_plausible w_pulled.
Proof. exact (counters_stay_plausible w_pulled Run.LoopHead pulled_reachable). Defined.

Lemma step_readings c c' :
  all_tracked (fst c) -> Run.step c c' ->
  (forall s f, s ∈ sources -> f = "packets" \/ f = "bytes" ->
     reading (src_state (fst c)) s f <= reading (src_state (fst c')) s f) /\
  (forall d f, d ∈ destinations -> f = "packets" \/ f = "bytes" ->
     reading (dst_state (fst c)) d f <= reading (dst_state (fst c')) d f).
Proof.
  intros Hall Hs. destruct Hs as [c1 c2 Hm | i w pc].
  - destruct (main_step_facts _ _ Hm) as (_ & _ & Hst & _).
    injection Hst as _ _ Hsrc Hdst. rewrite Hsrc, Hdst. split; intros; lia.
  - cbn [fst] in *.
    destruct (pull_tables i w Hall) as [Hsrc Hdst].
    split; [destruct Hsrc as [Hsrc | Hsrc] | destruct Hdst as [Hdst | Hdst]];
      intros k f Hin Hf.
    + rewrite Hsrc. lia.
    + destruct (bumped_grows 50 200 _ _ k ltac:(lia) (Hsrc k Hin)).
      destruct Hf as [-> | ->]; lia.
    + rewrite Hdst. lia.
    + destruct (bumped_grows 40 160 _ _ k ltac:(lia) (Hdst k Hin)).
      destruct Hf as [-> | ->]; lia.
Qed.

Lemma steps_readings c c' :
  Run.reachable c -> Run.steps c c' ->
  (forall s, s ∈ sources ->
     reading (src_state (fst c)) s "packets" <= reading (src_state (fst c')) s "packets" /\
     reading (src_state (fst c)) s "bytes" <= reading (src_state (fst c')) s "bytes") /\
  (forall d, d ∈ destinations ->
     reading (dst_state (fst c)) d "packets" <= reading (dst_state (fst c')) d "packets" /\
     reading (dst_state (fst c)) d "bytes" <= reading (dst_state (fst c')) d "bytes").
Proof.
  intros Hreach Hsteps. unfold Run.steps in Hsteps.
  induction Hsteps as [c | c1 c2 c3 Hstep Hrest IH].
  - split; intros; lia.
  - destruct (step_readings c1 c2 (reachable_tracked c1 Hreach) Hstep) as [Hs Hd].
    destruct (IH (reachable_step _ _ Hreach Hstep)) as [IHs IHd].
    split; [intros s Hin | intros d Hin].
    + pose proof (Hs s "packets" Hin ltac:(auto)).
      pose proof (Hs s "bytes" Hin ltac:(auto)).
      destruct (IHs s Hin). lia.
    + pose proof (Hd d "packets" Hin ltac:(auto)).
      pose proof (Hd d "bytes" Hin ltac:(auto)).
      destruct (IHd d Hin). lia.
Qed.

(** X7. Along every execution the cumulative packet and byte counters of
    every configured source and destination never decrease. *)
Theorem counters_monotone (w : world) (pc : Run.main_pc) (w' : world) (pc' : Run.main_pc) :
  Run.reachable (w, pc) -> Run.steps (w, pc) (w', pc') ->
  (forall s, s ∈ sources ->
     reading (src_state w) s "packets" <= reading (src_state w') s "packets" /\
     reading (src_state w) s "bytes" <= reading (src_state w') s "bytes") /\
  (forall d, d ∈ destinations ->
     reading (dst_state w) d "packets" <= reading (dst_state w') d "packets" /\
     reading (dst_state w) d "bytes" <= reading (dst_state w') d "bytes").
Proof. intros Hreach Hsteps. exact (steps_readings _ _ Hreach Hsteps). Qed.

Lemma counters_monotone_witness :
  (forall s, s ∈ sources ->
     reading (src_state (boot Sample.env5)) s "packets"
       <= reading (src_state w_pulled) s "packets" /\
     reading (src_state (boot Sample.env5)) s "bytes"
       <= reading (src_state w_pulled) s "bytes") /\
  (forall d, d ∈ destinations ->
     reading (dst_state (boot Sample.env5)) d "packets"
       <= reading (dst_state w_pulled) d "packets" /\
     reading (dst_state (boot Sample.env5)) d "bytes"
       <= reading (dst_state w_pulled) d "bytes").
Proof.
  apply (counters_monotone (boot Sample.env5) Run.LoopHead w_pulled Run.LoopHead).
  - exists Sample.env5. apply rtc_refl.
  - apply rtc_once.
    apply (Run.step_pull Run.src_stats_gauge (boot Sample.env5) Run.LoopHead).
Defined.

(** ** Pulls that fail *)

(** X8. In a reachable state a pull can only fail in a number conversion
    ([OverflowError] or [ValueError]), never on a missing key or a division,
    and a pull that fails has changed nothing of the shared state, the
    tracer or the log handler. *)
Theorem failed_pull_changes_nothing (w : world) (pc : Run.main_pc)
        (i : Run.instrument) (e : exn) (w' : world) :
  Run.reachable (w, pc) ->
  Run.callback i w = Raise e w' ->
  (e = OverflowError \/ e = ValueError) /\
  shared w' = shared w /\ tracer w' = tracer w /\ handler w' = handler w.
Proof.
  intros Hreach H. destruct (reachable_tracked _ Hreach) as [Hs Hd].
  cbn [fst] in *.
  destruct i; cbn [Run.callback] in H.
  - discriminate.
  - discriminate.
  - rewrite packet_rate_cb_run in H.
    destruct (PyNum.float_of_int _); [discriminate |].
    injection H as <- <-. auto.
  - destruct (PyNum.int_of_float (now_of w)) as [now |] eqn:E.
    + destruct (src_gauge_cb_run w now Hs E) as (w1 & Hrun & _). congruence.
    + unfold src_gauge_cb, bind, PyTime.time, py_int in H. unfold now_of in E.
      rewrite E in H. injection H as <- <-.
      split; [destruct (is_nan _); auto |]. repeat split.
  - destruct (dst_gauge_cb_run w Hd) as (w1 & Hrun & _). congruence.
Qed.

Lemma failed_pull_changes_nothing_witness :
  (OverflowError = OverflowError \/ OverflowError = ValueError) /\
  shared (final (src_gauge_cb (boot env_stuck))) = shared (boot env_stuck) /\
  tracer (final (src_gauge_cb (boot env_stuck))) = tracer (boot env_stuck) /\
  handler (final (src_gauge_cb (boot env_stuck))) = handler (boot env_stuck).
Proof.
  apply (failed_pull_changes_nothing (boot env_stuck) Run.LoopHead Run.src_stats_gauge).
  - exists env_stuck. apply rtc_refl.
  - vm_compute. reflexivity.
Defined.

(** ** A source missing from its table *)

Lemma for_each_app {A B} (l1 l2 : list A) (body : A -> B -> M B) acc w :
  for_each (l1 ++ l2) body acc w = bind (for_each l1 body acc) (for_each l2 body) w.
Proof.
  revert acc w. induction l1 as [| x l1 IH]; intros acc w; [reflexivity |].
  cbn [for_each app]. unfold bind at 1 2 3.
  destruct (body x acc w) as [acc' w1 | e w1]; [| reflexivity].
  rewrite IH. reflexivity.
Qed.

(** The loop body on a source that is not in the table: the two draws are
    made, then the first access raises. *)
Lemma src_gauge_body_missing now s out w :
  src_state w !! s = None ->
  src_gauge_body now s out w = Raise (KeyError s) (PyRandom.advance (PyRandom.advance w)).
Proof.
  intros Hs. unfold src_gauge_body.
  rewrite (bind_Ok_run _ _ _ _ _ (randint_run 50 200 w ltac:(lia))).
  rewrite (bind_Ok_run _ _ _ _ _ (randint_run 64 1200 _ ltac:(lia))).
  unfold bind, iadd, bind, getitem. table_simpl. rewrite Hs. reflexivity.
Qed.

(** X9. If a configured source is missing from the source table while the
    sources before it in the list are tracked, [src_gauge_cb] raises
    [KeyError] for that source after having bumped and stamped exactly the
    sources before it; the others are as they were. *)
Theorem src_gauge_cb_missing_source (w : world) (now : Z)
        (before : list string) (s : string) (after : list string) :
  sources = (before ++ s :: after)%list ->
  (forall k, k ∈ before -> tracked (src_state w) k) ->
  src_state w !! s = None ->
  PyNum.int_of_float (now_of w) = Some now ->
  exists w',
    src_gauge_cb w = Raise (KeyError s) w' /\
    (forall k, k ∈ before ->
       bumped 50 200 (src_state w) (src_state w') k /\
       cell (src_state w') k "last" = Some now) /\
    (forall k, k ∉ before -> src_state w' !! k = src_state w !! k).
Proof.
  intros Hsplit Hok Hs Hnow. unfold src_gauge_cb.
  assert (Ht : PyTime.time w = Ok (now_of w) (PyTime.tick w)) by reflexivity.
  rewrite (bind_Ok_run _ _ _ _ _ Ht).
  rewrite (bind_Ok_run _ _ _ _ _ (py_int_run _ _ _ Hnow)).
  rewrite Hsplit, for_each_app.
  pose proof sources_NoDup as Hnd. rewrite Hsplit in Hnd.
  apply NoDup_app in Hnd as (Hnd1 & Hdisj & _).
  destruct (src_loop now before Hnd1 [] (PyTime.tick w) Hok) as (w1 & Hrun & Hframe & Hent).
  rewrite (bind_Ok_run _ _ _ _ _ Hrun).
  assert (Hs1 : src_state w1 !! s = None).
  { rewrite Hframe; [exact Hs |]. intros Hin. apply (Hdisj s Hin). left. }
  cbn [for_each]. unfold bind at 1.
  rewrite (src_gauge_body_missing now s _ w1 Hs1).
  eexists. split; [reflexivity |]. split; [exact Hent | exact Hframe].
Qed.

Lemma w_lost_missing : src_state w_lost !! "source3" = None.
Proof. apply lookup_delete_eq. Qed.

Lemma src_gauge_cb_missing_source_witness :
  exists w',
    src_gauge_cb w_lost = Raise (KeyError "source3") w' /\
    (forall k, k ∈ ["source1"; "source2"] ->
       bumped 50 200 (src_state w_lost) (src_state w') k /\
       cell (src_state w') k "last" = Some 5) /\
    (forall k, k ∉ ["source1"; "source2"] -> src_state w' !! k = src_state w_lost !! k).
Proof.
  apply (src_gauge_cb_missing_source w_lost 5 ["source1"; "source2"] "source3"
           ["source4"; "source5"]).
  - reflexivity.
  - intros k Hk. repeat (apply elem_of_cons in Hk as [-> | Hk]);
      solve [inversion Hk | split; vm_compute; eauto].
  - exact w_lost_missing.
  - vm_compute. reflexivity.
Defined.

(** ** The rate estimator along an execution *)

Lemma step_baseline c c' :
  item_in_range (snd c) ->
  last_total (fst c) <= packets_in_total (fst c) + packets_out_total (fst c) ->
  Run.step c c' ->
  last_total (fst c') <= packets_in_total (fst c') + packets_out_total (fst c').
Proof.
  intros Hr Hle Hs.
  destruct (step_totals c c' Hr Hs) as (_ & Hin & Hout).
  destruct Hs as [c1 c2 Hm | i w pc].
  - destruct (main_step_facts _ _ Hm) as (_ & _ & Hst & _).
    injection Hst as _ Hlt _ _. lia.
  - cbn [fst snd] in *. destruct i; cbn [Run.callback] in *.
    + rewrite <- (ltac:(keeps_tac) : keeps (same last_total) packets_in_cb). lia.
    + rewrite <- (ltac:(keeps_tac) : keeps (same last_total) packets_out_cb). lia.
    + rewrite packet_rate_cb_run in *.
      destruct (PyNum.float_of_int _); cbn in *; lia.
    + rewrite <- (ltac:(keeps_tac) : keeps (same last_total) src_gauge_cb). lia.
    + rewrite <- (ltac:(keeps_tac) : keeps (same last_total) dst_gauge_cb). lia.
Qed.

Lemma reachable_baseline c :
  Run.reachable c ->
  last_total (fst c) <= packets_in_total (fst c) + packets_out_total (fst c).
Proof.
  revert c. apply reachable_ind.
  - intros e. cbn. lia.
  - intros c c' Hreach IH Hs.
    exact (step_baseline c c' (reachable_item_in_range c Hreach) IH Hs).
Qed.

(** X10. In every reachable state the total remembered by the rate
    estimator is not ahead of the sum of the two totals: the numerator of
    the rate is never negative. *)
Theorem rate_baseline_behind (w : world) (pc : Run.main_pc) :
  Run.reachable (w, pc) ->
  0 <= packets_in_total w + packets_out_total w - last_total w.
Proof. intros H. pose proof (reachable_baseline (w, pc) H) as Hle. cbn [fst] in Hle. lia. Qed.

Lemma rate_baseline_behind_witness :
  0 <= packets_in_total SampleRun.w_in + packets_out_total SampleRun.w_in
       - last_total SampleRun.w_in.
Proof.
  exact (rate_baseline_behind SampleRun.w_in
           (Run.Line163 SampleRun.the_item 2 3 0) sample_reachable_163).
Defined.

(** X11. After a pull of the packet rate that returned, a second pull
    before the main loop counts any packet returns exactly 0.0, whatever
    the clock reads then (the same instant, or an earlier one), and leaves
    the remembered total as it is. *)
Theorem rate_zero_at_rest (w : world) (obs : list Observation) (w1 : world) :
  packet_rate_cb w = Ok obs w1 ->
  exists w2,
    packet_rate_cb w1 = Ok [mkObservation (Float 0) host_labels] w2 /\
    last_total w2 = last_total w1.
Proof.
  intros H. rewrite packet_rate_cb_run in H.
  destruct (PyNum.float_of_int _); [| discriminate]. injection H as _ <-.
  rewrite packet_rate_cb_run. cbn.
  replace (packets_in_total w + packets_out_total w
           - (packets_in_total w + packets_out_total w)) with 0 by lia.
  change (PyNum.float_of_int 0) with (Some 0%float). cbv beta iota.
  rewrite zero_div_floor. eexists. split; reflexivity.
Qed.

Lemma rate_zero_at_rest_witness :
  exists w2,
    packet_rate_cb (final (packet_rate_cb Sample.rate_world))
    = Ok [mkObservation (Float 0) host_labels] w2 /\
    last_total w2 = last_total (final (packet_rate_cb Sample.rate_world)).
Proof.
  apply (rate_zero_at_rest Sample.rate_world
           [mkObservation (Float 10) host_labels]).
  reflexivity.
Defined.


(** ** Spans are closed on every path *)

Lemma set_attribute_open key v : keeps (same open_spans) (Trace.set_attribute key v).
Proof.
  intros w. unfold Trace.set_attribute, modify, same, open_spans, actives.
  cbn [final]. destruct (active (tracer w)) as [| s rest] eqn:E; cbn; now rewrite ?E.
Qed.

(** A [with tracer.start_as_current_span(...)] block whose body leaves the
    open spans alone leaves them alone itself, whether the body returns or
    raises. *)
Lemma span_block_open {A} name (body : M A) :
  keeps (same open_spans) body ->
  keeps (same open_spans) (Trace.start_as_current_span name body).
Proof.
  intros Hbody w. unfold Trace.start_as_current_span, bind.
  destruct (Trace.enter name w) as [u w1 | e w1] eqn:Henter.
  - apply enter_Ok in Henter as (root & Hroot & _ & _).
    specialize (Hbody w1). unfold same, open_spans in *.
    rewrite Hroot in Hbody. unfold finally, Trace.exit, modify.
    destruct (body w1) as [a w2 | e w2]; cbn [final] in *;
      unfold Trace.pop, actives in *;
      destruct (active (tracer w2)) as [| s rest]; try discriminate;
      cbn in *; now injection Hbody.
  - unfold Trace.enter, bind, Trace.get_current_span, gets, Trace.generate_trace_id,
      Trace.generate_span_id, PyRandom.raw, ret, modify in Henter.
    destruct (Trace.is_valid _); discriminate.
Qed.

Ltac open_step :=
  first
    [ apply span_block_open
    | apply set_attribute_open
    | keeps_step ].

Lemma stage_open name : keeps (same open_spans) (stage name).
Proof. unfold stage. apply span_block_open. keeps_tac. Qed.

Lemma simulate_item_open : keeps (same open_spans) simulate_item.
Proof.
  unfold simulate_item.
  repeat first [ apply stage_open | keeps_step ]; keeps_tac.
Qed.

Lemma process_item_open bl : keeps (same open_spans) (process_item bl).
Proof.
  unfold process_item.
  apply keeps_bind; [typeclasses eauto | apply simulate_item_open | intros it].
  keeps_tac.
Qed.

(** X12. Whether an iteration of the main loop returns or raises, the spans
    it opened are closed again: the spans open afterwards are those that
    were open before. *)
Theorem spans_closed_on_every_path (w : world) :
  open_spans (final (main_iteration w)) = open_spans w.
Proof.
  symmetry.
  assert (H : keeps (same open_spans) main_iteration).
  { unfold main_iteration, batch_body.
    repeat first [ apply span_block_open | apply set_attribute_open
                 | apply process_item_open | keeps_step ]; keeps_tac. }
  apply H.
Qed.


(** ** The root span along an execution *)

Lemma enter_span name w u w' :
  Trace.enter name w = Ok u w' ->
  exists root,
    actives w' = root :: actives w /\ span_name root = name /\
    span_attributes root = [] /\
    trace_id root <> 0%N /\ Trace.is_valid root = true /\
    ended (tracer w') = ended (tracer w) /\
    (forall parent rest, actives w = parent :: rest -> Trace.is_valid parent = true ->
                         trace_id root = trace_id parent).
Proof.
  unfold Trace.enter, Trace.get_current_span, Trace.generate_trace_id,
    Trace.generate_span_id, bind, gets, ret, modify, PyRandom.raw.
  set (parent := hd Trace.INVALID_SPAN (active (tracer w))).
  assert (Hsid : forall r : N, ((1 + r mod (2 ^ 64 - 1)) =? 0)%N = false).
  { intros r. apply N.eqb_neq. rewrite N.add_1_l. apply N.neq_succ_0. }
  destruct (Trace.is_valid parent) eqn:Hv; intros [= <- <-]; eexists;
    (split; [reflexivity |]); (split; [reflexivity |]); (split; [reflexivity |]).
  - pose proof Hv as Hv'. unfold Trace.is_valid in Hv'.
    apply andb_true_iff in Hv' as [Ht _].
    apply negb_true_iff in Ht. split; [now apply N.eqb_neq |].
    split; [| split; [reflexivity |]].
    + unfold Trace.is_valid. cbn [trace_id span_id]. now rewrite Ht, Hsid.
    + intros p rest Hact _. subst parent. unfold actives in Hact. now rewrite Hact.
  - split; [cbn [trace_id]; rewrite N.add_1_l; apply N.neq_succ_0 |].
    split; [| split; [reflexivity |]].
    + unfold Trace.is_valid. cbn [trace_id span_id]. rewrite Hsid.
      assert (H1 : forall r : N, ((1 + r mod (2 ^ 128 - 1)) =? 0)%N = false).
      { intros r. apply N.eqb_neq. rewrite N.add_1_l. apply N.neq_succ_0. }
      now rewrite H1.
    + intros p rest Hact Hp. subst parent. unfold actives in Hact.
      rewrite Hact in Hv. cbn in Hv. congruence.
Qed.

Lemma set_attribute_span key v w u w' root rest :
  Trace.set_attribute key v w = Ok u w' -> actives w = root :: rest ->
  exists root',
    actives w' = root' :: rest /\ span_key root' = span_key root /\
    span_attributes root' = (span_attributes root ++ [(key, v)])%list /\
    ended (tracer w') = ended (tracer w).
Proof.
  unfold Trace.set_attribute, modify, actives. intros [= _ <-] Hact.
  rewrite Hact. eexists. repeat split.
Qed.

Lemma tid_of_actives w v : actives w = actives v -> tid_of w = tid_of v.
Proof. unfold tid_of, actives. now intros ->. Qed.

Lemma batch_open_span w rc w' :
  Run.batch_open w = Ok rc w' -> actives w = [] ->
  3 <= rc <= 8 /\ batch_span (Run.ItemHead (Z.to_nat rc) rc 0) w'.
Proof.
  intros H Hact. unfold Run.batch_open in H.
  apply bind_Ok_inv in H as (rc' & w1 & Hrc & H).
  apply bind_Ok_inv in H as (u1 & w2 & Henter & H).
  apply bind_Ok_inv in H as (u2 & w3 & Hattr & H).
  injection H as <- <-.
  pose proof Hrc as Hrc'. apply randint_Ok_inv in Hrc' as [Hb _]. split; [exact Hb |].
  frame actives Hrc. rewrite Hact in Hsame.
  apply enter_span in Henter as (root & Hroot & Hname & _ & Hne & _ & _ & _).
  rewrite Hsame in Hroot.
  destruct (set_attribute_span _ _ _ _ _ _ _ Hattr Hroot) as (root' & Hroot' & Hkey & _).
  injection Hkey as Hn Ht _.
  exists root'. split; [exact Hroot' |]. split; [congruence |].
  split; [congruence |].
  apply tid_of_root with (rest := []); [exact Hroot' | congruence].
Qed.

Lemma batch_close_span rc bl w w' :
  Run.batch_close rc bl w = Ok tt w' -> (exists root, actives w = [root]) ->
  actives w' = [].
Proof.
  intros H [root Hroot]. unfold Run.batch_close in H.
  apply bind_Ok_inv in H as (u1 & w1 & Ha1 & H).
  apply bind_Ok_inv in H as (u2 & w2 & Ha2 & H).
  apply bind_Ok_inv in H as (u3 & w3 & Hexit & H).
  destruct (set_attribute_span _ _ _ _ _ _ _ Ha1 Hroot) as (r1 & Hr1 & _).
  destruct (set_attribute_span _ _ _ _ _ _ _ Ha2 Hr1) as (r2 & Hr2 & _).
  frame actives H. rewrite Hsame.
  unfold Trace.exit, modify in Hexit. injection Hexit as _ <-.
  unfold actives, Trace.pop in *. now rewrite Hr2.
Qed.

Lemma step_batch_span c c' :
  batch_span (snd c) (fst c) -> Run.step c c' -> batch_span (snd c') (fst c').
Proof.
  intros Hinv Hs. destruct Hs as [c1 c2 Hm | i w pc].
  - destruct Hm as [w rc w' H | w k rc bl it w' H | w k rc bl it w' H
                    | w k rc bl it w' H | w k rc bl it w' H | w rc bl w' H];
      cbn [fst snd] in *.
    + apply (batch_open_span _ _ _ H Hinv).
    + apply simulate_item_actives in H.
      destruct Hinv as (root & Hroot & Hname & Hne & Htid).
      exists root. rewrite H, (tid_of_actives _ _ H). auto.
    + unfold incr_in, bind, gets, modify in H. injection H as <-. exact Hinv.
    + unfold incr_out, bind, gets, modify in H. injection H as <-. exact Hinv.
    + rewrite emit_item_run in H. injection H as <-.
      destruct Hinv as (root & Hroot & Hname & Hne & Htid).
      assert (Hact : actives (write_outcome (line_of (record_of it w)) (PyTime.tick w))
                     = actives w)
        by (unfold write_outcome; destruct (sink_error _); reflexivity).
      exists root. rewrite Hact, (tid_of_actives _ _ Hact). auto.
    + cbn [batch_span]. eapply batch_close_span; [exact H |].
      destruct Hinv as (root & Hroot & _). eauto.
  - cbn [fst snd] in *.
    assert (Hact : actives (final (Run.callback i w)) = actives w).
    { symmetry. apply (ltac:(destruct i; keeps_tac) : keeps (same actives) (Run.callback i)). }
    destruct pc; cbn [batch_span] in *;
      try (destruct Hinv as (root & Hroot & Hname & Hne & Htid); exists root);
      rewrite ?Hact, ?(tid_of_actives _ _ Hact); auto.
Qed.

Lemma reachable_batch_span c : Run.reachable c -> batch_span (snd c) (fst c).
Proof.
  revert c. apply reachable_ind.
  - intros e. reflexivity.
  - intros c c' _ IH Hs. exact (step_batch_span c c' IH Hs).
Qed.

(** X13. Along every execution no span is open between two iterations of the
    main loop, and when the main thread is about to emit the record of an
    item, the root span ["process_batch"] alone is open, its trace identity
    is not zero, the emission is enabled, and the record given to the log
    emitter carries the rendering of that identity. *)
Theorem records_carry_the_root_trace (w : world) (it : item) (k : nat) (rc bl : Z) :
  (Run.reachable (w, Run.LoopHead) -> actives w = []) /\
  (Run.reachable (w, Run.Line166 it k rc bl) ->
   exists root w',
     actives w = [root] /\ span_name root = "process_batch" /\
     trace_id root <> 0%N /\
     Run.main_step (w, Run.Line166 it k rc bl) (w', Run.ItemHead k rc bl) /\
     handler w' = handler (emitted [record_of it w] w) /\
     assoc "trace_id" (record_of it w)
       = Some (JStr (PyStr.format_032x (trace_id root)))).
Proof.
  split; intros Hreach; apply reachable_batch_span in Hreach as Hinv;
    cbn [fst snd batch_span] in Hinv; [exact Hinv |].
  destruct Hinv as (root & Hroot & Hname & Hne & Htid).
  exists root, (write_outcome (line_of (record_of it w)) (PyTime.tick w)).
  split; [exact Hroot |]. split; [exact Hname |]. split; [exact Hne |].
  split; [apply Run.step_emit, emit_item_run |]. split.
  - cbn [emitted fold_left]. apply write_outcome_handler; reflexivity.
  - unfold record_of. rewrite Htid. reflexivity.
Qed.

Lemma sample_reachable_166 : Run.reachable at_line_166.
Proof.
  apply (reachable_step _ _ sample_reachable_163).
  apply Run.step_main. apply Run.step_incr_out. reflexivity.
Qed.

Lemma records_carry_the_root_trace_witness :
  exists root w',
    actives w_out = [root] /\ span_name root = "process_batch" /\
    trace_id root <> 0%N /\
    Run.main_step (w_out, Run.Line166 SampleRun.the_item 2 3 0)
                  (w', Run.ItemHead 2 3 0) /\
    handler w' = handler (emitted [record_of SampleRun.the_item w_out] w_out) /\
    assoc "trace_id" (record_of SampleRun.the_item w_out)
      = Some (JStr (PyStr.format_032x (trace_id root))).
Proof.
  exact (proj2 (records_carry_the_root_trace w_out SampleRun.the_item 2 3 0)
               sample_reachable_166).
Defined.


(** ** A whole iteration, for any number of items *)

(** ** A whole iteration *)

Lemma stage_Ok name w u w' root rest :
  stage name w = Ok u w' ->
  actives w = root :: rest -> Trace.is_valid root = true ->
  actives w' = actives w /\
  exists child,
    stage_span (trace_id root) name child /\
    ended (tracer w') = (ended (tracer w) ++ [child])%list.
Proof.
  intros H Hact Hvalid. unfold stage, Trace.start_as_current_span in H.
  apply bind_Ok_inv in H as (u1 & w1 & Henter & H).
  apply finally_Ok_inv in H as (w2 & Hbody & Hexit).
  apply enter_span in Henter as (child & Hchild & Hname & Hattrs & _ & _ & Hended & Hparent).
  frame tracer Hbody.
  unfold Trace.exit, modify in Hexit. injection Hexit as <-.
  unfold actives, Trace.pop in *. rewrite Hsame, Hchild. cbn.
  split; [reflexivity |]. exists child. split.
  - split; [exact Hname |]. split; [| exact Hattrs]. exact (Hparent root rest Hact Hvalid).
  - now rewrite Hended.
Qed.

Lemma simulate_item_spans w it w' root rest :
  simulate_item w = Ok it w' ->
  actives w = root :: rest -> Trace.is_valid root = true ->
  exists c1 c2 c3,
    stage_span (trace_id root) "ingest" c1 /\
    stage_span (trace_id root) "transform" c2 /\
    stage_span (trace_id root) "store" c3 /\
    ended (tracer w') = (ended (tracer w) ++ [c1; c2; c3])%list.
Proof.
  intros H Hact Hvalid. unfold simulate_item in H.
  apply bind_Ok_inv in H as (s & w1 & H1 & H).
  apply bind_Ok_inv in H as (d & w2 & H2 & H).
  apply bind_Ok_inv in H as (sz & w3 & H3 & H).
  apply bind_Ok_inv in H as (st & w4 & H4 & H).
  apply bind_Ok_inv in H as (t0 & w5 & H5 & H).
  apply bind_Ok_inv in H as (u1 & w6 & H6 & H).
  apply bind_Ok_inv in H as (u2 & w7 & H7 & H).
  apply bind_Ok_inv in H as (u3 & w8 & H8 & H).
  apply bind_Ok_inv in H as (t1 & w9 & H9 & H).
  apply bind_Ok_inv in H as (lat & w10 & H10 & H).
  injection H as _ <-.
  frame tracer H1. frame tracer H2. frame tracer H3. frame tracer H4. frame tracer H5.
  frame tracer H9. frame tracer H10.
  assert (Ht5 : tracer w5 = tracer w) by congruence.
  assert (Ha5 : actives w5 = root :: rest) by (unfold actives; now rewrite Ht5).
  destruct (stage_Ok _ _ _ _ _ _ H6 Ha5 Hvalid) as (Ha6 & c1 & Hc1 & He6).
  rewrite Ha5 in Ha6.
  destruct (stage_Ok _ _ _ _ _ _ H7 Ha6 Hvalid) as (Ha7 & c2 & Hc2 & He7).
  rewrite Ha6 in Ha7.
  destruct (stage_Ok _ _ _ _ _ _ H8 Ha7 Hvalid) as (Ha8 & c3 & Hc3 & He8).
  exists c1, c2, c3. repeat (split; [assumption |]).
  assert (Hte : tracer w10 = tracer w8) by congruence.
  rewrite Hte, He8, He7, He6, Ht5. now rewrite <- !app_assoc.
Qed.

(** One pass of the inner loop under a valid root span. *)
Lemma process_item_full bl w bl' w' root rest :
  process_item bl w = Ok bl' w' ->
  actives w = root :: rest -> Trace.is_valid root = true ->
  exists x c1 c2 c3,
    item_drawn x /\
    bl' = bl + latency_ms (snd x) /\
    packets_in_total w' = packets_in_total w + size (snd x) / 512 /\
    packets_out_total w' = packets_out_total w + size (snd x) / 512 /\
    actives w' = actives w /\
    sink_error (environ w') = sink_error (environ w) /\
    handler w' = handler (emitted [item_record (trace_id root) x] w) /\
    stage_span (trace_id root) "ingest" c1 /\
    stage_span (trace_id root) "transform" c2 /\
    stage_span (trace_id root) "store" c3 /\
    ended (tracer w') = (ended (tracer w) ++ [c1; c2; c3])%list.
Proof.
  intros H Hact Hvalid. unfold process_item in H.
  apply bind_Ok_inv in H as (it & w1 & Hsim & H).
  apply bind_Ok_inv in H as (u1 & w2 & Hin & H).
  apply bind_Ok_inv in H as (u2 & w3 & Hout & H).
  apply bind_Ok_inv in H as (u3 & w4 & Hemit & H).
  injection H as <- <-.
  pose proof (simulate_item_Ok _ _ _ Hsim) as Hdrawn.
  pose proof (simulate_item_actives _ _ _ Hsim) as Hact1.
  destruct (simulate_item_spans _ _ _ _ _ Hsim Hact Hvalid)
    as (c1 & c2 & c3 & Hc1 & Hc2 & Hc3 & Hended).
  apply (keeps_Ok _ _ _ _ _ simulate_item_settled) in Hsim.
  apply eq_sym, settled_inv in Hsim as (Hi & Ho & _ & _ & Hh & Hsk).
  unfold incr_in, bind, gets, modify in Hin. injection Hin as _ <-.
  unfold incr_out, bind, gets, modify in Hout. injection Hout as _ <-.
  rewrite emit_item_run in Hemit. injection Hemit as _ <-.
  set (w3 := set_packets_out_total _ _).
  assert (Hvalid0 : trace_id root <> 0%N).
  { unfold Trace.is_valid in Hvalid. apply andb_true_iff in Hvalid as [Hv _].
    now apply negb_true_iff, N.eqb_neq in Hv. }
  assert (Htid : tid_of w3 = Some (PyStr.format_032x (trace_id root))).
  { apply tid_of_root with (rest := rest); [| exact Hvalid0].
    subst w3. unfold actives in *. cbn. now rewrite Hact1. }
  exists (calendar (environ w3) (now_of w3), it), c1, c2, c3.
  split; [exact Hdrawn |]. split; [reflexivity |].
  unfold item_record. cbn [fst snd]. rewrite <- Htid.
  change (log_record _ it (tid_of w3)) with (record_of it w3).
  set (line := line_of _). subst w3.
  unfold PyNum.floordiv.
  split; [unfold write_outcome; destruct (sink_error _); cbn; lia |].
  split; [unfold write_outcome; destruct (sink_error _); cbn; lia |].
  split; [unfold write_outcome, actives in *; destruct (sink_error _); cbn; congruence |].
  split; [rewrite write_outcome_sink; cbn; congruence |].
  split; [cbn [emitted fold_left]; apply write_outcome_handler; cbn; congruence |].
  repeat (split; [assumption |]).
  rewrite <- Hended. unfold write_outcome. destruct (sink_error _); reflexivity.
Qed.

Lemma emitted_app l1 l2 w : emitted (l1 ++ l2) w = emitted l2 (emitted l1 w).
Proof. unfold emitted. apply fold_left_app. Qed.

Lemma emitted_sink l w : sink_error (environ (emitted l w)) = sink_error (environ w).
Proof.
  revert w. induction l as [| r l IH]; intros w; [reflexivity |].
  cbn [emitted fold_left]. change (fold_left _ l ?x) with (emitted l x).
  now rewrite IH, write_outcome_sink.
Qed.

Lemma emitted_handler l w v :
  handler w = handler v -> sink_error (environ w) = sink_error (environ v) ->
  handler (emitted l w) = handler (emitted l v).
Proof.
  revert w v. induction l as [| r l IH]; intros w v Hh Hs; [exact Hh |].
  cbn [emitted fold_left]. change (fold_left _ l ?x) with (emitted l x).
  apply IH; [now apply write_outcome_handler | now rewrite !write_outcome_sink].
Qed.



(** The inner loop under a valid root span: [n] items, their records in
    order, three spans per item in the trace of the root. *)
Lemma for_range_full n : forall bl w bl' w' root rest,
  for_range n process_item bl w = Ok bl' w' ->
  actives w = root :: rest -> Trace.is_valid root = true ->
  exists items children,
    length items = n /\ Forall item_drawn items /\
    bl' = bl + latency_of items /\
    packets_in_total w' = packets_in_total w + packets_of items /\
    packets_out_total w' = packets_out_total w + packets_of items /\
    actives w' = actives w /\
    sink_error (environ w') = sink_error (environ w) /\
    handler w' = handler (emitted (map (item_record (trace_id root)) items) w) /\
    ended (tracer w') = (ended (tracer w) ++ children)%list /\
    map span_name children = stage_names n /\
    Forall (fun c => trace_id c = trace_id root /\ span_attributes c = []) children.
Proof.
  induction n as [| n IH]; intros bl w bl' w' root rest H Hact Hvalid;
    cbn [for_range] in H.
  - injection H as <- <-. exists [], []. cbn. rewrite app_nil_r.
    repeat split; try lia; constructor.
  - apply bind_Ok_inv in H as (bl1 & w1 & Hitem & H).
    destruct (process_item_full _ _ _ _ _ _ Hitem Hact Hvalid)
      as (x & c1 & c2 & c3 & Hx & Hbl & Hin & Hout & Hact1 & Hsk & Hh
          & (Hn1 & Hc1 & Ha1) & (Hn2 & Hc2 & Ha2) & (Hn3 & Hc3 & Ha3) & Hended).
    rewrite Hact in Hact1.
    destruct (IH _ _ _ _ _ _ H Hact1 Hvalid)
      as (items & children & Hlen & Hall & Hbl' & Hin' & Hout' & Hact' & Hsk' & Hh'
          & Hended' & Hlen' & Hchildren).
    exists (x :: items), ([c1; c2; c3] ++ children)%list.
    cbn [length map packets_of latency_of foldr].
    fold (packets_of items). fold (latency_of items).
    split; [lia |]. split; [now constructor |].
    split; [lia |]. split; [lia |]. split; [lia |].
    split; [congruence |]. split; [congruence |].
    split.
    { rewrite Hh'. change (emitted (?r :: ?l) w) with (emitted l (emitted [r] w)).
      apply emitted_handler; [exact Hh |]. now rewrite Hsk, emitted_sink. }
    split; [rewrite Hended', Hended; now rewrite <- app_assoc |].
    split; [rewrite map_app, Hlen'; cbn; now rewrite Hn1, Hn2, Hn3 |].
    apply Forall_app. split; [| exact Hchildren].
    repeat constructor; assumption.
Qed.

Lemma stage_names_length n : length (stage_names n) = (3 * n)%nat.
Proof.
  unfold stage_names. induction n as [| n IH]; [reflexivity |].
  cbn [repeat concat]. rewrite length_app, IH. cbn. lia.
Qed.

(** A completed iteration of the main loop, whatever the number of items
    drawn. *)
Lemma main_iteration_full w w' :
  main_iteration w = Ok tt w' ->
  exists rc items root children,
    3 <= rc <= 8 /\ length items = Z.to_nat rc /\ Forall item_drawn items /\
    packets_in_total w' = packets_in_total w + packets_of items /\
    packets_out_total w' = packets_out_total w + packets_of items /\
    handler w' = handler (emitted (map (item_record (trace_id root)) items) w) /\
    actives w' = actives w /\
    ended (tracer w') = (ended (tracer w) ++ children ++ [root])%list /\
    span_name root = "process_batch" /\ Trace.is_valid root = true /\
    span_attributes root =
      [("hostname", AStr "host1"); ("batch.size", AInt rc);
       ("batch.latency_ms", AInt (latency_of items))] /\
    map span_name children = stage_names (Z.to_nat rc) /\
    Forall (fun c => trace_id c = trace_id root /\ span_attributes c = []) children.
Proof.
  intros H. unfold main_iteration in H.
  apply bind_Ok_inv in H as (rc & w0 & Hrc & H).
  apply bind_Ok_inv in H as (u & w9 & Hspan & Hsleep).
  unfold Trace.start_as_current_span in Hspan.
  apply bind_Ok_inv in Hspan as (u0 & w1 & Henter & Hfin).
  apply finally_Ok_inv in Hfin as (w8 & Hbody & Hexit).
  unfold batch_body in Hbody.
  apply bind_Ok_inv in Hbody as (u1 & w2 & Hattr & Hbody).
  apply bind_Ok_inv in Hbody as (bl & w6 & Hloop & Hbody).
  apply bind_Ok_inv in Hbody as (u2 & w7 & Hattr2 & Hattr3).
  pose proof Hrc as Hb. apply randint_Ok_inv in Hb as [Hb _].
  assert (Hs0 : settled w0 = settled w) by (frame settled Hrc; exact Hsame).
  assert (Ha0 : actives w0 = actives w) by (frame actives Hrc; exact Hsame).
  assert (He0 : ended (tracer w0) = ended (tracer w))
    by (frame (fun x => ended (tracer x)) Hrc; exact Hsame).
  pose proof (enter_Ok _ _ _ _ Henter) as (root0' & Hroot0' & _ & Hs1).
  apply enter_span in Henter
    as (root0 & Hroot0 & Hname & Hattrs & Hne & Hvalid & He1 & _).
  destruct (set_attribute_Ok _ _ _ _ _ _ _ Hattr Hroot0) as (Hs2 & _).
  destruct (set_attribute_span _ _ _ _ _ _ _ Hattr Hroot0)
    as (root1 & Hroot1 & Hkey1 & Hattrs1 & He2).
  assert (Hvalid1 : Trace.is_valid root1 = true).
  { injection Hkey1 as _ Ht Hs. unfold Trace.is_valid. rewrite Ht, Hs. exact Hvalid. }
  destruct (for_range_full _ _ _ _ _ _ _ Hloop Hroot1 Hvalid1)
    as (items & children & Hlen & Hall & Hbl & Hin & Hout & Hact6 & Hsk6 & Hh6
        & He6 & Hnames & Hchildren).
  rewrite Hroot1 in Hact6.
  destruct (set_attribute_Ok _ _ _ _ _ _ _ Hattr2 Hact6) as (Hs7 & _).
  destruct (set_attribute_span _ _ _ _ _ _ _ Hattr2 Hact6)
    as (root2 & Hroot2 & Hkey2 & Hattrs2 & He7).
  destruct (set_attribute_Ok _ _ _ _ _ _ _ Hattr3 Hroot2) as (Hs8 & _).
  destruct (set_attribute_span _ _ _ _ _ _ _ Hattr3 Hroot2)
    as (root3 & Hroot3 & Hkey3 & Hattrs3 & He8).
  assert (Hs9 : settled w9 = settled w8) by (frame settled Hexit; exact Hsame).
  unfold Trace.exit, modify in Hexit. injection Hexit as <-.
  assert (Hs10 : settled w' = settled (Trace.pop w8))
    by (frame settled Hsleep; exact Hsame).
  assert (Ha10 : actives w' = actives (Trace.pop w8))
    by (frame actives Hsleep; exact Hsame).
  assert (He10 : ended (tracer w') = ended (tracer (Trace.pop w8)))
    by (frame (fun x => ended (tracer x)) Hsleep; exact Hsame).
  assert (Hpop : actives (Trace.pop w8) = actives w /\
                 ended (tracer (Trace.pop w8)) = (ended (tracer w8) ++ [root3])%list).
  { unfold actives, Trace.pop in *. rewrite Hroot3. cbn. split; congruence. }
  destruct Hpop as [Hpa Hpe].
  assert (Hsw : settled w' = settled w6) by congruence.
  apply settled_inv in Hsw as (Hin9 & Hout9 & _ & _ & Hh9 & _).
  assert (Hsw2 : settled w2 = settled w) by congruence.
  apply settled_inv in Hsw2 as (Hin2 & Hout2 & _ & _ & Hh2 & Hsk2).
  assert (Htr : trace_id root3 = trace_id root1).
  { injection Hkey2 as _ Ht2 _. injection Hkey3 as _ Ht3 _. congruence. }
  exists rc, items, root3, children.
  split; [exact Hb |]. split; [exact Hlen |]. split; [exact Hall |].
  split; [lia |]. split; [lia |].
  split; [rewrite Hh9, Hh6, Htr; now apply emitted_handler |].
  split; [congruence |].
  split; [rewrite He10, Hpe, He8, He7, He6, He2, He1, He0; now rewrite <- app_assoc |].
  split; [injection Hkey1 as Hn1 _ _; injection Hkey2 as Hn2 _ _;
          injection Hkey3 as Hn3 _ _; congruence |].
  split; [injection Hkey2 as _ Ht2 Hi2; injection Hkey3 as _ Ht3 Hi3;
          unfold Trace.is_valid in *; rewrite Ht3, Ht2, Hi3, Hi2; exact Hvalid1 |].
  split; [rewrite Hattrs3, Hattrs2, Hattrs1, Hattrs, Hbl; reflexivity |].
  split; [exact Hnames |].
  rewrite Htr. exact Hchildren.
Qed.



(** X15. An iteration of the main loop that completes ends, after the spans
    ended before, three spans per item, named [ingest], [transform] and
    [store] in this order and without attributes, and then one valid span
    [process_batch] whose attributes are the host name, the number of items
    and the latency of the batch; all of them belong to the trace of
    [process_batch], and the spans open afterwards are those open before. *)
Theorem iteration_exports_one_trace (w w' : world) :
  main_iteration w = Ok tt w' ->
  exists rc bl root children,
    3 <= rc <= 8 /\
    ended (tracer w') = (ended (tracer w) ++ children ++ [root])%list /\
    actives w' = actives w /\
    span_name root = "process_batch" /\ Trace.is_valid root = true /\
    span_attributes root =
      [("hostname", AStr "host1"); ("batch.size", AInt rc);
       ("batch.latency_ms", AInt bl)] /\
    map span_name children = stage_names (Z.to_nat rc) /\
    length children = (3 * Z.to_nat rc)%nat /\
    Forall (fun c => trace_id c = trace_id root /\ span_attributes c = []) children.
Proof.
  intros H.
  destruct (main_iteration_full _ _ H)
    as (rc & items & root & children & Hb & _ & _ & _ & _ & _ & Hact & Hended & Hname
        & Hvalid & Hattrs & Hnames & Hchildren).
  exists rc, (latency_of items), root, children.
  repeat (split; [assumption || lia |]).
  split; [| exact Hchildren].
  rewrite <- (length_map span_name), Hnames. apply stage_names_length.
Qed.

Lemma iteration_exports_one_trace_witness :
  exists rc bl root children,
    3 <= rc <= 8 /\
    ended (tracer after_iteration)
    = (ended (tracer (boot Sample.env5)) ++ children ++ [root])%list /\
    actives after_iteration = actives (boot Sample.env5) /\
    span_name root = "process_batch" /\ Trace.is_valid root = true /\
    span_attributes root =
      [("hostname", AStr "host1"); ("batch.size", AInt rc);
       ("batch.latency_ms", AInt bl)] /\
    map span_name children = stage_names (Z.to_nat rc) /\
    length children = (3 * Z.to_nat rc)%nat /\
    Forall (fun c => trace_id c = trace_id root /\ span_attributes c = []) children.
Proof.
  apply (iteration_exports_one_trace (boot Sample.env5) after_iteration).
  vm_compute. reflexivity.
Defined.


(** ** An iteration that fails *)
















(** ** The integers of the records *)

Lemma digits2_pos_bound m : Zpos m < 2 ^ Zpos (SpecFloat.digits2_pos m).
Proof.
  induction m as [m IH | m IH |]; cbn [SpecFloat.digits2_pos].
  - rewrite Pos2Z.inj_succ, Z.pow_succ_r by lia. lia.
  - rewrite Pos2Z.inj_succ, Z.pow_succ_r by lia. lia.
  - reflexivity.
Qed.

(** [int(x)] of a binary64 float lies below [2 ^ 1024] in magnitude. *)
Lemma int_of_float_bound x z :
  PyNum.int_of_float x = Some z -> Z.abs z < 2 ^ 1024.
Proof.
  unfold PyNum.int_of_float. pose proof (Prim2SF_valid x) as Hv.
  destruct (Prim2SF x) as [s | s | | s m e]; cbn [PyNum.int_of_spec_float];
    intros [= <-]; [reflexivity |].
  unfold SpecFloat.valid_binary, SpecFloat.bounded in Hv.
  apply andb_true_iff in Hv as [Hc He].
  unfold SpecFloat.canonical_mantissa, SpecFloat.fexp, SpecFloat.emin in Hc.
  apply Z.eqb_eq in Hc. apply Z.leb_le in He.
  change prec with 53 in *. change emax with 1024 in *.
  pose proof (digits2_pos_bound m) as Hm.
  assert (Hd : Zpos (SpecFloat.digits2_pos m) <= 53) by lia.
  assert (Hm53 : Zpos m < 2 ^ 53).
  { eapply Z.lt_le_trans; [exact Hm |]. apply Z.pow_le_mono_r; lia. }
  assert (Hmag : 0 <= match e with
                      | Zneg k => Z.shiftr (Zpos m) (Zpos k)
                      | _ => Z.shiftl (Zpos m) e
                      end < 2 ^ 1024).
  { destruct e as [| k | k].
    - rewrite Z.shiftl_0_r. split; [lia |].
      eapply Z.lt_trans; [exact Hm53 |]. apply Z.pow_lt_mono_r; lia.
    - rewrite Z.shiftl_mul_pow2 by lia. split; [apply Z.mul_nonneg_nonneg; lia |].
      replace 1024 with (53 + 971) by lia. rewrite Z.pow_add_r by lia.
      assert (HA : 0 < 2 ^ Zpos k <= 2 ^ 971)
        by (split; [apply Z.pow_pos_nonneg; lia | apply Z.pow_le_mono_r; lia]).
      generalize dependent (2 ^ Zpos k). generalize (2 ^ 971). generalize dependent (2 ^ 53).
      intros. nia.
    - rewrite Z.shiftr_div_pow2 by lia. split; [apply Z.div_pos; lia |].
      eapply Z.le_lt_trans; [apply Z.div_le_upper_bound with (q := Zpos m) |].
      + lia.
      + assert (1 <= 2 ^ Zpos k) by (apply (Z.pow_le_mono_r 2 0); lia). nia.
      + eapply Z.lt_trans; [exact Hm53 |]. apply Z.pow_lt_mono_r; lia. }
  destruct s; lia.
Qed.

Lemma py_int_Ok_inv x w z w' : py_int x w = Ok z w' -> PyNum.int_of_float x = Some z.
Proof. unfold py_int. destruct (PyNum.int_of_float x); [now intros [= -> _] | discriminate]. Qed.

(** X17. Every record the main loop builds is one [json.dumps] serialises:
    the size of a simulated item is at most 4000 and its latency, the
    integer part of a binary64 float, is below [2 ^ 1024] in magnitude, far
    below the limit of 4300 digits. So [json.dumps] cannot raise
    [ValueError] in the loop. *)
Theorem loop_records_serialisable (w : world) (it : item) (w' : world)
        (ts : string) (tid : option string) :
  simulate_item w = Ok it w' ->
  200 <= size it <= 4000 /\ Z.abs (latency_ms it) < 2 ^ 1024 /\
  Json.accepts (log_record ts it tid) = true.
Proof.
  intros H. pose proof (simulate_item_Ok _ _ _ H) as (Hsz & _).
  assert (Hlat : Z.abs (latency_ms it) < 2 ^ 1024).
  { unfold simulate_item in H. inv_bind H. injection H as <- _. cbn [latency_ms].
    eapply int_of_float_bound, py_int_Ok_inv. eassumption. }
  split; [exact Hsz |]. split; [exact Hlat |].
  assert (Hbig : 2 ^ 1024 < 10 ^ 4300) by (apply Z.ltb_lt; vm_compute; reflexivity).
  assert (Hsmall : 4000 < 2 ^ 1024) by (apply Z.ltb_lt; vm_compute; reflexivity).
  unfold Json.accepts, log_record. cbn [forallb snd andb].
  generalize dependent (10 ^ 4300). generalize dependent (2 ^ 1024). intros B Hlat HB L HL.
  assert (H1 : (Z.abs (size it) <? L) = true) by (apply Z.ltb_lt; lia).
  assert (H2 : (Z.abs (latency_ms it) <? L) = true) by (apply Z.ltb_lt; lia).
  rewrite H1, H2. now destruct tid.
Qed.

Lemma loop_records_serialisable_witness :
  200 <= size SampleRun.the_item <= 4000 /\
  Z.abs (latency_ms SampleRun.the_item) < 2 ^ 1024 /\
  Json.accepts (log_record "2024-01-01T00:00:05" SampleRun.the_item None) = true.
Proof.
  apply (loop_records_serialisable SampleRun.w_open SampleRun.the_item SampleRun.w_sim).
  vm_compute. reflexivity.
Defined.
